(** * A shallow embedding of [main.py] (the BFHL computation service)

    The numeric kernels, the extraction utility, the AI answer resolver,
    the dispatcher [bfhl] and the exception handlers of [main.py] are
    translated function by function.

    - Python's [int] is unbounded: it is modelled as [Z]; [%] and [//] are
      floor operations, as [Z.modulo] and [Z.div].
    - [str] is modelled as [string]; a character is a code point below 256.
    - A [while] loop is a [Fixpoint] on a fuel counter that returns [None]
      when the counter runs out; each function that owns a loop is shown to
      return with the fuel it is given.
    - [raise] is modelled with the sum type [result]. *)

From Stdlib Require Import ZArith Bool Lia String Ascii Znumtheory List Permutation.
Import ListNotations.

Local Open Scope Z_scope.

(** ** Numeric kernels *)

Module Kernels.

(** The [while i * i <= n] loop of [is_prime]. *)
Fixpoint is_prime_loop (fuel : nat) (n i : Z) : option bool :=
  match fuel with
  | O => None
  | S fuel' =>
      if i * i <=? n then
        if (n mod i =? 0) || (n mod (i + 2) =? 0) then Some false
        else is_prime_loop fuel' n (i + 6)
      else Some true
  end.

Definition is_prime_fuel (fuel : nat) (n : Z) : option bool :=
  if n <=? 1 then Some false
  else if n <=? 3 then Some true
  else if (n mod 2 =? 0) || (n mod 3 =? 0) then Some false
  else is_prime_loop fuel n 5.

(** [is_prime n]; the loop cannot take more than [n] rounds
    (see [is_prime_fuel_enough]). *)
Definition is_prime (n : Z) : bool :=
  match is_prime_fuel (Z.to_nat n) n with
  | Some b => b
  | None => false
  end.

(** [seq[-k]] for [k >= 1]: [None] stands for [IndexError]. *)
Definition index_from_end (seq : list Z) (k : nat) : option Z :=
  match k with
  | O => None
  | S _ => if (k <=? length seq)%nat then nth_error seq (length seq - k) else None
  end.

(** The [while len(seq) < n] loop of [fibonacci_series]. *)
Fixpoint fibonacci_loop (fuel : nat) (n : Z) (seq : list Z) : option (list Z) :=
  match fuel with
  | O => None
  | S fuel' =>
      if Z.of_nat (length seq) <? n then
        match index_from_end seq 1, index_from_end seq 2 with
        | Some a, Some b => fibonacci_loop fuel' n (seq ++ [a + b])
        | _, _ => None
        end
      else Some seq
  end.

Definition fibonacci_series_fuel (fuel : nat) (n : Z) : option (list Z) :=
  if n =? 0 then Some []
  else if n =? 1 then Some [0]
  else fibonacci_loop fuel n [0; 1].

(** [fibonacci_series n]; the loop test is evaluated at most [n + 1] times
    (see [fibonacci_series_fuel_enough]). *)
Definition fibonacci_series (n : Z) : list Z :=
  match fibonacci_series_fuel (S (Z.to_nat n)) n with
  | Some seq => seq
  | None => []
  end.

(** [math.gcd]: the nonnegative greatest common divisor. *)
Definition gcd (a b : Z) : Z := Z.gcd a b.

Definition lcm (a b : Z) : Z :=
  if (a =? 0) || (b =? 0) then 0
  else Z.abs (a * b) / gcd a b.

(** The [for x in nums[1:]] loops of the two reducers. *)
Definition lcm_of_list (nums : list Z) : Z :=
  match nums with
  | [] => 0
  | first :: rest => fold_left (fun result x => lcm result (Z.abs x)) rest (Z.abs first)
  end.

Definition hcf_of_list (nums : list Z) : Z :=
  match nums with
  | [] => 0
  | first :: rest => fold_left (fun result x => gcd result (Z.abs x)) rest (Z.abs first)
  end.

(** The reference predicate of the specification: trial division by every
    candidate from 2 to [n - 1]. *)
Fixpoint no_divisor_from (count : nat) (d n : Z) : bool :=
  match count with
  | O => true
  | S count' => if n mod d =? 0 then false else no_divisor_from count' (d + 1) n
  end.

Definition trial_division (n : Z) : bool :=
  (2 <=? n) && no_divisor_from (Z.to_nat (n - 2)) 2 n.

(** What the claims about the kernels speak of: a sequence in which every
    term that has two predecessors is their sum, and a number above 1 that
    no candidate from 2 up to its predecessor divides. *)
Definition additive (seq : list Z) : Prop :=
  forall (i : nat) (a b c : Z),
    nth_error seq i = Some a ->
    nth_error seq (S i) = Some b ->
    nth_error seq (S (S i)) = Some c ->
    c = b + a.

Definition no_proper_divisor (n : Z) : Prop :=
  2 <= n /\ forall d : Z, 2 <= d < n -> n mod d <> 0.

(** What the loop of [is_prime] has checked when it ends without a divisor:
    the candidates [i], [i + 6], ... whose square does not exceed [n]. *)
Definition loop_candidates_pass (n i : Z) : Prop :=
  forall j : Z,
    i <= j -> (j - i) mod 6 = 0 -> j * j <= n ->
    n mod j <> 0 /\ n mod (j + 2) <> 0.

End Kernels.

(** ** Text: the [str] methods the service uses, and [re.search] *)

Module Text.

Definition code (c : ascii) : Z := Z.of_N (N_of_ascii c).

Definition in_range (lo hi : Z) (c : ascii) : bool :=
  (lo <=? code c) && (code c <=? hi).

(** The characters [str.strip] removes: TAB to CR, FS to US, space, NEL
    and the no-break space. *)
Definition is_space (c : ascii) : bool :=
  in_range 9 13 c || in_range 28 32 c || (code c =? 133) || (code c =? 160).

(** [str.lower] on one character: [A-Z] and the upper-case letters of the
    Latin-1 supplement (all of C0..DE but the multiplication sign). *)
Definition is_upper (c : ascii) : bool :=
  in_range 65 90 c || (in_range 192 222 c && negb (code c =? 215)).

Definition lower_char (c : ascii) : ascii :=
  if is_upper c then ascii_of_N (Z.to_N (code c + 32)) else c.

Fixpoint lower (s : string) : string :=
  match s with
  | EmptyString => EmptyString
  | String c s' => String (lower_char c) (lower s')
  end.

Fixpoint lstrip (s : string) : string :=
  match s with
  | EmptyString => EmptyString
  | String c s' => if is_space c then lstrip s' else s
  end.

Fixpoint rstrip (s : string) : string :=
  match s with
  | EmptyString => EmptyString
  | String c s' =>
      match rstrip s' with
      | EmptyString => if is_space c then EmptyString else String c EmptyString
      | kept => String c kept
      end
  end.

Definition strip (s : string) : string := rstrip (lstrip s).

(** [len(s)] *)
Definition len (s : string) : Z := Z.of_nat (String.length s).

(** The fragment of regular expressions [first_word] needs: a repeated
    character class, concatenation and a non-capturing group. *)
Inductive regex : Type :=
  | Plus (cls : ascii -> bool)
  | Star (cls : ascii -> bool)
  | Cat (r1 r2 : regex)
  | Group (r : regex).

(** A greedy repetition takes one more character first and gives it back
    when the rest of the pattern fails.  The result is the number of
    characters matched, the continuation's included. *)
Fixpoint match_star (cls : ascii -> bool) (s : string)
    (k : string -> option nat) : option nat :=
  match s with
  | String c s' =>
      if cls c then
        match match_star cls s' k with
        | Some n => Some (S n)
        | None => k s
        end
      else k s
  | EmptyString => k s
  end.

Fixpoint match_here (r : regex) (s : string)
    (k : string -> option nat) : option nat :=
  match r with
  | Star cls => match_star cls s k
  | Plus cls =>
      match s with
      | String c s' => if cls c then option_map S (match_star cls s' k) else None
      | EmptyString => None
      end
  | Cat r1 r2 => match_here r1 s (fun rest => match_here r2 rest k)
  | Group r1 => match_here r1 s k
  end.

(** [re.search(r, s)]: the match at the leftmost position that has one;
    the result is [match.group(0)]. *)
Fixpoint re_search (r : regex) (s : string) : option string :=
  match match_here r s (fun _ => Some O) with
  | Some n => Some (substring 0 n s)
  | None =>
      match s with
      | String _ s' => re_search r s'
      | EmptyString => None
      end
  end.

(** The two character classes of the pattern. *)
Definition is_letter (c : ascii) : bool :=
  in_range 65 90 c || in_range 97 122 c.

Definition is_letter_or_hyphen (c : ascii) : bool :=
  in_range 65 90 c || in_range 97 122 c || (code c =? 45).

(** The pattern of [first_word]: the class [A-Za-z] once or more, then a
    non-capturing group holding the class [A-Za-z-] any number of times. *)
Definition word_pattern : regex :=
  Cat (Plus is_letter) (Group (Star is_letter_or_hyphen)).

(** [first_word]; [text or ""] is [text] itself on a [str]. *)
Definition first_word (text : string) : string :=
  match re_search word_pattern text with
  | Some group0 => group0
  | None => EmptyString
  end.

(** What the claims about [first_word] speak of. *)
Fixpoint all_chars (p : ascii -> bool) (s : string) : bool :=
  match s with
  | EmptyString => true
  | String c s' => p c && all_chars p s'
  end.

Fixpoint has_letter (s : string) : bool :=
  match s with
  | EmptyString => false
  | String c s' => is_letter c || has_letter s'
  end.

(** A word of the pattern: a letter, then letters and hyphens. *)
Definition is_word (w : string) : bool :=
  match w with
  | EmptyString => false
  | String c w' => is_letter c && all_chars is_letter_or_hyphen w'
  end.

(** The number of leading characters of a class. *)
Fixpoint span (cls : ascii -> bool) (s : string) : nat :=
  match s with
  | String c s' => if cls c then S (span cls s') else O
  | EmptyString => O
  end.

(** The text after a maximal run does not go on with a letter or hyphen. *)
Definition run_ends (suffix : string) : bool :=
  match suffix with
  | EmptyString => true
  | String c _ => negb (is_letter_or_hyphen c)
  end.

End Text.

(** ** The service: configuration, resolver, dispatcher, handlers *)

Module Service.

Import Kernels Text.

(** Exceptions.  [HTTPException] carries its status code and detail; any
    other exception is only known by its class. *)
Inductive exn : Type :=
  | HTTPException (status_code : Z) (detail : string)
  | OtherException (class : string).

Inductive result (A : Type) : Type :=
  | Return (a : A)
  | Raise (e : exn).

Arguments Return {A} a.
Arguments Raise {A} e.

Definition bind {A B : Type} (m : result A) (f : A -> result B) : result B :=
  match m with
  | Return a => f a
  | Raise e => Raise e
  end.

Notation "x <- m ;; f" := (bind m (fun x => f))
  (at level 61, m at next level, right associativity).

Definition option_bind {A B : Type} (m : option A) (f : A -> option B) : option B :=
  match m with
  | Some a => f a
  | None => None
  end.

Notation "x <~ m ;; f" := (option_bind m (fun x => f))
  (at level 61, m at next level, right associativity).

(** The environment read at start-up.  [os.getenv] with a default always
    gives a string; [GEMINI_API_KEY] has none and may be absent. *)
Record Config : Type := {
  OFFICIAL_EMAIL : string;
  GEMINI_API_KEY : option string;
  GEMINI_MODEL : string
}.

(** [not GEMINI_API_KEY]: absent or empty. *)
Definition no_api_key (cfg : Config) : bool :=
  match GEMINI_API_KEY cfg with
  | None => true
  | Some EmptyString => true
  | Some (String _ _) => false
  end.

(** JSON values as [resp.json()] yields them.  Of a float the code can
    only see whether it is zero. *)
#[warnings="-register-all"]
Inductive json : Type :=
  | JNull
  | JBool (b : bool)
  | JInt (z : Z)
  | JFloat (is_zero : bool)
  | JStr (s : string)
  | JArr (items : list json)
  | JObj (fields : list (string * json)).

(** Truth value of a JSON value, for [text or ""]. *)
Definition truthy (v : json) : bool :=
  match v with
  | JNull => false
  | JBool b => b
  | JInt z => negb (z =? 0)
  | JFloat is_zero => negb is_zero
  | JStr s => negb (String.eqb s EmptyString)
  | JArr items => match items with [] => false | _ :: _ => true end
  | JObj fields => match fields with [] => false | _ :: _ => true end
  end.

Fixpoint dict_get {A : Type} (fields : list (string * A)) (key : string) : option A :=
  match fields with
  | [] => None
  | (k, v) :: fields' => if String.eqb k key then Some v else dict_get fields' key
  end.

(** [v[key]] and [v[0]]; [None] stands for the exception the subscript
    raises ([KeyError], [IndexError] or [TypeError]). *)
Definition subscript_key (v : json) (key : string) : option json :=
  match v with
  | JObj fields => dict_get fields key
  | _ => None
  end.

Definition subscript_zero (v : json) : option json :=
  match v with
  | JArr (item :: _) => Some item
  | JStr (String c _) => Some (JStr (String c EmptyString))
  | _ => None
  end.

(** What [requests.post] does: raise a [RequestException], or give a
    response with a status code whose [json()] raises ([None]) or not. *)
Inductive post_outcome : Type :=
  | RequestException
  | Response (status_code : Z) (body : option json).

Definition known_question : string := "what is the capital city of maharashtra?".

Definition fallback_map : list (string * string) :=
  [(known_question, "Mumbai"%string)].

(** The body of an envelope. *)
Inductive payload : Type :=
  | DataList (xs : list Z)
  | DataInt (z : Z)
  | DataStr (s : string).

Record error_body : Type := {
  code : Z;
  message : string;
  path : string
}.

Record envelope : Type := {
  is_success : bool;
  official_email : string;
  data : option payload;
  error : option error_body
}.

Record JSONResponse : Type := {
  status : Z;
  content : envelope
}.

Record BFHLRequest : Type := {
  fibonacci : option Z;
  prime : option (list Z);
  lcm : option (list Z);
  hcf : option (list Z);
  AI : option string
}.

(** A field of a request, as [getattr] returns it. *)
Inductive field_value : Type :=
  | FInt (n : Z)
  | FList (arr : list Z)
  | FStr (q : string).

Definition getattr (req : BFHLRequest) (k : string) : option field_value :=
  if String.eqb k "fibonacci" then option_map FInt (fibonacci req)
  else if String.eqb k "prime" then option_map FList (prime req)
  else if String.eqb k "lcm" then option_map FList (lcm req)
  else if String.eqb k "hcf" then option_map FList (hcf req)
  else if String.eqb k "AI" then option_map FStr (AI req)
  else None.

Definition is_not_none {A : Type} (o : option A) : bool :=
  match o with
  | Some _ => true
  | None => false
  end.

Definition functional_keys : list string :=
  ["fibonacci"; "prime"; "lcm"; "hcf"; "AI"]%string.

Definition provided_keys (req : BFHLRequest) : list string :=
  filter (fun k => is_not_none (getattr req k)) functional_keys.

Section WithEnvironment.

Variable cfg : Config.

(** The provider, seen from [ask_ai_single_word]: URL and payload to
    outcome. *)
Variable requests_post : string -> json -> post_outcome.

Definition ask_ai_single_word (question : string) : result string :=
  if no_api_key cfg then
    let lower := Text.lower (Text.strip question) in
    if String.eqb lower known_question then Return "Mumbai"%string
    else Raise (HTTPException 500 "AI provider key not configured")
  else
    let api_key := match GEMINI_API_KEY cfg with Some k => k | None => EmptyString end in
    let url :=
      ("https://generativelanguage.googleapis.com/v1beta/models/"
         ++ GEMINI_MODEL cfg ++ ":generateContent?key=" ++ api_key)%string in
    let payload :=
      JObj [("contents"%string,
             JArr [JObj [("parts"%string,
                          JArr [JObj [("text"%string,
                                       JStr ("Answer in exactly one word. Question: "
                                               ++ question)%string)]])]])] in
    match requests_post url payload with
    | RequestException => Raise (HTTPException 502 "AI provider unreachable")
    | Response status_code body =>
        if status_code >=? 400 then Raise (HTTPException 502 "AI provider error")
        else
          match body with
          | None => Raise (OtherException "JSONDecodeError")
          | Some data =>
              let text :=
                candidates <~ subscript_key data "candidates" ;;
                candidate <~ subscript_zero candidates ;;
                content <~ subscript_key candidate "content" ;;
                parts <~ subscript_key content "parts" ;;
                part <~ subscript_zero parts ;;
                subscript_key part "text" in
              match text with
              | None => Raise (HTTPException 502 "AI response parsing failed")
              | Some text =>
                  word <-
                    (if truthy text then
                       match text with
                       | JStr s => Return (first_word s)
                       | _ => Raise (OtherException "TypeError")
                       end
                     else Return (first_word EmptyString)) ;;
                  if negb (String.eqb word EmptyString) then Return word
                  else
                    let lower := Text.lower (Text.strip question) in
                    match dict_get fallback_map lower with
                    | Some answer => Return answer
                    | None => Raise (HTTPException 502 "AI yielded empty answer")
                    end
              end
          end
    end.

Definition success_body (d : payload) : envelope :=
  {| is_success := true;
     official_email := OFFICIAL_EMAIL cfg;
     data := Some d;
     error := None |}.

Definition bfhl (req : BFHLRequest) : result envelope :=
  let provided_keys := provided_keys req in
  if negb (Z.of_nat (length provided_keys) =? 1) then
    Raise (HTTPException 400 "Provide exactly one functional key")
  else
    match provided_keys with
    | [] => Raise (OtherException "IndexError")
    | key :: _ =>
        d <-
          (if String.eqb key "fibonacci" then
             match fibonacci req with
             | None => Raise (HTTPException 400 "fibonacci must be integer")
             | Some n =>
                 if (n <? 0) || (n >? 1000) then
                   Raise (HTTPException 400 "fibonacci out of allowed range")
                 else Return (DataList (fibonacci_series n))
             end
           else if String.eqb key "prime" || String.eqb key "lcm" || String.eqb key "hcf" then
             match getattr req key with
             | Some (FList arr) =>
                 if (Z.of_nat (length arr) =? 0) || (Z.of_nat (length arr) >? 1000) then
                   Raise (HTTPException 400 (key ++ " array size invalid"))
                 else if String.eqb key "prime" then
                   Return (DataList (filter is_prime arr))
                 else if String.eqb key "lcm" then
                   Return (DataInt (lcm_of_list arr))
                 else Return (DataInt (hcf_of_list arr))
             | _ => Raise (HTTPException 400 (key ++ " must be integer array"))
             end
           else if String.eqb key "AI" then
             match AI req with
             | None => Raise (HTTPException 400 "AI must be non-empty question")
             | Some q =>
                 if (Text.len (Text.strip q) =? 0) || (Text.len q >? 300) then
                   Raise (HTTPException 400 "AI must be non-empty question")
                 else
                   word <- ask_ai_single_word (Text.strip q) ;;
                   Return (DataStr word)
             end
           else Raise (HTTPException 400 "Unsupported functional key")) ;;
        Return (success_body d)
    end.

(** The handlers of [HTTPException] and of [Exception]; [request_path] is
    [request.url.path].  The handler of [RequestValidationError] answers a
    request that never reaches [bfhl], and its content holds [exc.errors()],
    which the framework produces and renders: it is not modelled. *)
Definition http_exception_handler (request_path : string)
    (exc_status_code : Z) (exc_detail : string) : JSONResponse :=
  {| status := exc_status_code;
     content :=
       {| is_success := false;
          official_email := OFFICIAL_EMAIL cfg;
          data := None;
          error := Some {| code := exc_status_code;
                           message := exc_detail;
                           path := request_path |} |} |}.

Definition unhandled_exception_handler (request_path : string) : JSONResponse :=
  {| status := 500;
     content :=
       {| is_success := false;
          official_email := OFFICIAL_EMAIL cfg;
          data := None;
          error := Some {| code := 500;
                           message := "Internal server error";
                           path := request_path |} |} |}.

(** The envelope builder: what the application answers for a result of
    [bfhl], a returned body with status 200 and a raised exception through
    the handler registered for its class. *)
Definition respond (request_path : string) (r : result envelope) : JSONResponse :=
  match r with
  | Return body => {| status := 200; content := body |}
  | Raise (HTTPException status_code detail) =>
      http_exception_handler request_path status_code detail
  | Raise (OtherException _) => unhandled_exception_handler request_path
  end.

End WithEnvironment.

(** Requests with one field. *)
Definition no_fields : BFHLRequest :=
  {| fibonacci := None; prime := None; lcm := None; hcf := None; AI := None |}.

Definition only_fibonacci (n : Z) : BFHLRequest :=
  {| fibonacci := Some n; prime := None; lcm := None; hcf := None; AI := None |}.

Definition only_prime (arr : list Z) : BFHLRequest :=
  {| fibonacci := None; prime := Some arr; lcm := None; hcf := None; AI := None |}.

Definition only_lcm (arr : list Z) : BFHLRequest :=
  {| fibonacci := None; prime := None; lcm := Some arr; hcf := None; AI := None |}.

Definition only_hcf (arr : list Z) : BFHLRequest :=
  {| fibonacci := None; prime := None; lcm := None; hcf := Some arr; AI := None |}.

Definition only_AI (q : string) : BFHLRequest :=
  {| fibonacci := None; prime := None; lcm := None; hcf := None; AI := Some q |}.

(** The number of fields of a request that are not [None]. *)
Definition present_count (req : BFHLRequest) : Z :=
  Z.b2z (is_not_none (fibonacci req)) + Z.b2z (is_not_none (prime req))
  + Z.b2z (is_not_none (lcm req)) + Z.b2z (is_not_none (hcf req))
  + Z.b2z (is_not_none (AI req)).

(** [InvalidInput] is an [HTTPException] with status 400. *)
Definition is_invalid_input {A : Type} (r : result A) : bool :=
  match r with
  | Raise (HTTPException status_code _) => status_code =? 400
  | _ => false
  end.

Definition is_return {A : Type} (r : result A) : bool :=
  match r with
  | Return _ => true
  | Raise _ => false
  end.

(** The process started with no environment variable set, and a provider
    that cannot be reached. *)
Definition default_config : Config :=
  {| OFFICIAL_EMAIL := "nishant3892.beai23@chitkara.edu.in";
     GEMINI_API_KEY := None;
     GEMINI_MODEL := "gemini-1.5-flash" |}.

Definition unreachable_provider (url : string) (payload : json) : post_outcome :=
  RequestException.

(** A process with a provider key, and a provider that answers every
    request with the same text in the expected shape. *)
Definition live_config : Config :=
  {| OFFICIAL_EMAIL := "nishant3892.beai23@chitkara.edu.in";
     GEMINI_API_KEY := Some "k"%string;
     GEMINI_MODEL := "gemini-1.5-flash" |}.

Definition answering_provider (text : json) (url : string) (payload : json)
    : post_outcome :=
  Response 200
    (Some (JObj [("candidates"%string,
                  JArr [JObj [("content"%string,
                               JObj [("parts"%string,
                                      JArr [JObj [("text"%string, text)]])])]])])).

End Service.

(** ** Reference notions and the remaining endpoint *)

Module Notions.

Import Service.

(** The Fibonacci numbers by their recurrence. *)
Fixpoint fib (i : nat) : Z :=
  match i with
  | O => 0
  | S j =>
      match j with
      | O => 1
      | S k => fib j + fib k
      end
  end.

(** The subscript chain of [ask_ai_single_word] on the provider's reply,
    [data["candidates"][0]["content"]["parts"][0]["text"]]. *)
Definition candidate_text (data : json) : option json :=
  candidates <~ subscript_key data "candidates" ;;
  candidate <~ subscript_zero candidates ;;
  content <~ subscript_key candidate "content" ;;
  parts <~ subscript_key content "parts" ;;
  part <~ subscript_zero parts ;;
  subscript_key part "text".

(** What [ask_ai_single_word] hands to [requests.post]: the URL with the
    model and the key, and the payload with the fixed prompt followed by the
    question. *)
Definition request_url (cfg : Config) : string :=
  ("https://generativelanguage.googleapis.com/v1beta/models/"
     ++ GEMINI_MODEL cfg ++ ":generateContent?key="
     ++ match GEMINI_API_KEY cfg with Some k => k | None => EmptyString end)%string.

Definition request_payload (question : string) : json :=
  JObj [("contents"%string,
         JArr [JObj [("parts"%string,
                      JArr [JObj [("text"%string,
                                   JStr ("Answer in exactly one word. Question: "
                                           ++ question)%string)]])]])].

(** The two conditions under which [bfhl] refuses a question. *)
Definition blank (q : string) : bool := Text.len (Text.strip q) =? 0.

Definition too_long (q : string) : bool := Text.len q >? 300.

(** [health]: the success envelope with no data. *)
Definition health (cfg : Config) : envelope :=
  {| is_success := true;
     official_email := OFFICIAL_EMAIL cfg;
     data := None;
     error := None |}.

(** Case analysis that keeps the equation of the scrutinee. *)
Ltac case_innermost_eqn :=
  match goal with
  | |- context [match ?x with _ => _ end] =>
      lazymatch x with
      | context [match _ with _ => _ end] => fail
      | _ => destruct x eqn:?
      end
  end.

End Notions.

(** Case analysis on a scrutinee that holds no other case analysis. *)
Ltac case_innermost :=
  match goal with
  | |- context [match ?x with _ => _ end] =>
      lazymatch x with
      | context [match _ with _ => _ end] => fail
      | _ => destruct x
      end
  end.

(** ** The kernels and the text functions on sample inputs *)

Example is_prime_97 : Kernels.is_prime 97 = true.
Proof. reflexivity. Qed.

Example is_prime_91 : Kernels.is_prime 91 = false.
Proof. reflexivity. Qed.

Example fibonacci_series_5 : Kernels.fibonacci_series 5 = [0; 1; 1; 2; 3].
Proof. reflexivity. Qed.

Example fibonacci_series_neg : Kernels.fibonacci_series (-4) = [0; 1].
Proof. reflexivity. Qed.

Example lcm_of_list_example : Kernels.lcm_of_list [4; 6; 10] = 60.
Proof. reflexivity. Qed.

Example hcf_of_list_example : Kernels.hcf_of_list [12; 18; 24] = 6.
Proof. reflexivity. Qed.

Example first_word_example :
  Text.first_word "  --The well-known city, Mumbai."%string = "The"%string.
Proof. reflexivity. Qed.

Example first_word_hyphen :
  Text.first_word "42 -well-known- x"%string = "well-known-"%string.
Proof. reflexivity. Qed.

Example bfhl_fibonacci_5 :
  Service.bfhl Service.default_config Service.unreachable_provider
    (Service.only_fibonacci 5)
  = Service.Return
      (Service.success_body Service.default_config (Service.DataList [0; 1; 1; 2; 3])).
Proof. reflexivity. Qed.

Example bfhl_lcm_example :
  Service.bfhl Service.default_config Service.unreachable_provider
    (Service.only_lcm [4; 6; 10])
  = Service.Return (Service.success_body Service.default_config (Service.DataInt 60)).
Proof. reflexivity. Qed.

Example bfhl_hcf_example :
  Service.bfhl Service.default_config Service.unreachable_provider
    (Service.only_hcf [12; 18; 24])
  = Service.Return (Service.success_body Service.default_config (Service.DataInt 6)).
Proof. reflexivity. Qed.

Example bfhl_no_fields :
  Service.bfhl Service.default_config Service.unreachable_provider Service.no_fields
  = Service.Raise (Service.HTTPException 400 "Provide exactly one functional key").
Proof. reflexivity. Qed.

Example bfhl_blank_question :
  Service.bfhl Service.default_config Service.unreachable_provider
    (Service.only_AI "   ")
  = Service.Raise (Service.HTTPException 400 "AI must be non-empty question").
Proof. reflexivity. Qed.

Example bfhl_live_answer :
  Service.bfhl Service.live_config
    (Service.answering_provider (Service.JStr "**Paris** is the capital."))
    (Service.only_AI "What is the capital of France?")
  = Service.Return (Service.success_body Service.live_config (Service.DataStr "Paris")).
Proof. reflexivity. Qed.

Example bfhl_live_fallback :
  Service.bfhl Service.live_config
    (Service.answering_provider (Service.JStr "400 001"))
    (Service.only_AI " What is the capital city of Maharashtra? ")
  = Service.Return (Service.success_body Service.live_config (Service.DataStr "Mumbai")).
Proof. reflexivity. Qed.

Example bfhl_live_text_not_string :
  Service.respond Service.live_config "/bfhl"
    (Service.bfhl Service.live_config
       (Service.answering_provider (Service.JInt 7))
       (Service.only_AI "How many days are in a week?"))
  = Service.unhandled_exception_handler Service.live_config "/bfhl".
Proof. reflexivity. Qed.

Example strip_lower_example :
  Text.lower (Text.strip "  What Is?  "%string) = "what is?"%string.
Proof. reflexivity. Qed.

(** ** The Fibonacci generator *)

Section Fibonacci.

Import Kernels.

Lemma index_from_end_last (seq : list Z) (x : Z) :
  index_from_end (seq ++ [x]) 1 = Some x.
Proof.
  unfold index_from_end.
  rewrite length_app; cbn [length].
  destruct (Nat.leb_spec 1 (length seq + 1)) as [_ | Hlt]; [| lia].
  replace (length seq + 1 - 1)%nat with (length seq) by lia.
  rewrite nth_error_app2 by lia.
  now rewrite Nat.sub_diag.
Qed.

Lemma index_from_end_spec (seq : list Z) (k : nat) :
  (1 <= k <= length seq)%nat ->
  index_from_end seq k = nth_error seq (length seq - k).
Proof.
  intros [Hk Hlen]. unfold index_from_end.
  destruct k as [| k']; [lia |].
  now destruct (Nat.leb_spec (S k') (length seq)) as [_ | Hlt]; [| lia].
Qed.

Lemma additive_snoc (seq : list Z) (a b : Z) :
  (2 <= length seq)%nat ->
  additive seq ->
  nth_error seq (length seq - 1) = Some a ->
  nth_error seq (length seq - 2) = Some b ->
  additive (seq ++ [a + b]).
Proof.
  intros Hlen Hadd Ha Hb i x y z Hx Hy Hz.
  assert (Hi : (S (S i) < length (seq ++ [(a + b)%Z]))%nat)
    by (apply nth_error_Some; congruence).
  rewrite length_app in Hi; cbn [length] in Hi.
  destruct (Nat.eq_dec (S (S i)) (length seq)) as [Heq | Hne].
  - rewrite nth_error_app2 in Hz by lia.
    replace (S (S i) - length seq)%nat with 0%nat in Hz by lia.
    cbn in Hz.
    rewrite nth_error_app1 in Hx, Hy by lia.
    replace (length seq - 1)%nat with (S i) in Ha by lia.
    replace (length seq - 2)%nat with i in Hb by lia.
    congruence.
  - rewrite nth_error_app1 in Hx, Hy, Hz by lia.
    eapply Hadd; eassumption.
Qed.

Lemma fibonacci_loop_spec (fuel : nat) :
  forall (n : Z) (seq : list Z),
    (2 <= length seq)%nat ->
    additive seq ->
    (Z.to_nat (n - Z.of_nat (length seq)) < fuel)%nat ->
    exists ext,
      fibonacci_loop fuel n seq = Some (seq ++ ext)
      /\ additive (seq ++ ext)
      /\ Z.of_nat (length (seq ++ ext)) = Z.max n (Z.of_nat (length seq)).
Proof.
  induction fuel as [| fuel IH]; intros n seq Hlen Hadd Hfuel; [lia |].
  cbn [fibonacci_loop].
  destruct (Z.ltb_spec (Z.of_nat (length seq)) n) as [Hlt | Hge].
  - rewrite !index_from_end_spec by lia.
    destruct (nth_error seq (length seq - 1)) as [a |] eqn:Ha;
      [| apply nth_error_None in Ha; lia].
    destruct (nth_error seq (length seq - 2)) as [b |] eqn:Hb;
      [| apply nth_error_None in Hb; lia].
    destruct (IH n (seq ++ [a + b])) as (ext & Hrun & Hadd' & Hlen').
    + rewrite length_app; cbn [length]; lia.
    + now apply additive_snoc.
    + rewrite length_app; cbn [length]; lia.
    + exists ((a + b) :: ext).
      rewrite <- app_assoc in Hrun, Hadd', Hlen'; cbn [app] in Hrun, Hadd', Hlen'.
      repeat split; try assumption.
      rewrite Hlen', length_app; cbn [length]; lia.
  - exists []. rewrite app_nil_r. repeat split; try assumption. lia.
Qed.

Lemma additive_base : additive [0; 1].
Proof.
  intros i a b c _ _ Hc.
  cbn in Hc. destruct i; discriminate.
Qed.

(** The loop of [fibonacci_series] ends within the fuel it is given. *)
Lemma fibonacci_series_fuel_enough (n : Z) :
  fibonacci_series_fuel (S (Z.to_nat n)) n = Some (fibonacci_series n).
Proof.
  unfold fibonacci_series, fibonacci_series_fuel.
  destruct (n =? 0); [reflexivity |].
  destruct (n =? 1); [reflexivity |].
  destruct (fibonacci_loop_spec (S (Z.to_nat n)) n [0; 1]) as (ext & Hrun & _);
    [cbn; lia | apply additive_base | cbn [length]; lia |].
  now rewrite Hrun.
Qed.

Lemma fibonacci_series_shape (n : Z) :
  2 <= n ->
  exists ext,
    fibonacci_series n = 0 :: 1 :: ext
    /\ additive (fibonacci_series n)
    /\ Z.of_nat (length (fibonacci_series n)) = n.
Proof.
  intros Hn. unfold fibonacci_series, fibonacci_series_fuel.
  destruct (Z.eqb_spec n 0); [lia |].
  destruct (Z.eqb_spec n 1); [lia |].
  destruct (fibonacci_loop_spec (S (Z.to_nat n)) n [0; 1]) as (ext & Hrun & Hadd & Hlen);
    [cbn; lia | apply additive_base | cbn [length]; lia |].
  rewrite Hrun. exists ext. cbn [app] in *. repeat split; try assumption.
  rewrite Hlen. cbn [length]. lia.
Qed.

End Fibonacci.

(** C2: for every n from 0 to 1000, [fibonacci_series n] returns, and what it
    returns has exactly n terms, starts with 0 and 1 when n is at least 2, and
    has every term from the third on equal to the sum of the two terms before
    it; [fibonacci_series 0] is empty and [fibonacci_series 1] is [[0]]. *)
Theorem fibonacci_series_correct (n : Z) (Hn : 0 <= n <= 1000) :
  Kernels.fibonacci_series_fuel (S (Z.to_nat n)) n = Some (Kernels.fibonacci_series n)
  /\ Z.of_nat (length (Kernels.fibonacci_series n)) = n
  /\ (2 <= n ->
      nth_error (Kernels.fibonacci_series n) 0 = Some 0
      /\ nth_error (Kernels.fibonacci_series n) 1 = Some 1)
  /\ (forall i : nat,
        (2 <= i < length (Kernels.fibonacci_series n))%nat ->
        nth i (Kernels.fibonacci_series n) 0
        = nth (i - 1) (Kernels.fibonacci_series n) 0
          + nth (i - 2) (Kernels.fibonacci_series n) 0)
  /\ Kernels.fibonacci_series 0 = []
  /\ Kernels.fibonacci_series 1 = [0].
Proof.
  split; [apply fibonacci_series_fuel_enough |].
  assert (Hcases : n = 0 \/ n = 1 \/ 2 <= n) by lia.
  destruct Hcases as [-> | [-> | Hbig]].
  - cbn. repeat split; try reflexivity; lia.
  - cbn. repeat split; try reflexivity; lia.
  - destruct (fibonacci_series_shape n Hbig) as (ext & Hseq & Hadd & Hlen).
    split; [exact Hlen |].
    split; [intros _; rewrite Hseq; split; reflexivity |].
    split; [| split; reflexivity].
    intros i Hi.
    destruct i as [| [| j]]; try lia.
    replace (S (S j) - 1)%nat with (S j) by lia.
    replace (S (S j) - 2)%nat with j by lia.
    apply (Hadd j); apply nth_error_nth'; lia.
Qed.

Lemma fibonacci_series_correct_witness :
  0 <= 10 <= 1000
  /\ Z.of_nat (length (Kernels.fibonacci_series 10)) = 10
  /\ nth 9 (Kernels.fibonacci_series 10) 0 = 34.
Proof.
  split; [lia |].
  destruct (fibonacci_series_correct 10 ltac:(lia)) as (_ & Hlen & _).
  split; [exact Hlen | reflexivity].
Defined.

(** ** The two reducers *)

Section Reducers.

Import Kernels.

(** [lcm] is the least common multiple of the standard library. *)
Lemma lcm_is_Zlcm (a b : Z) : lcm a b = Z.lcm a b.
Proof.
  unfold lcm, gcd.
  destruct (Z.eqb_spec a 0) as [-> | Ha]; [now rewrite Z.lcm_0_l |].
  destruct (Z.eqb_spec b 0) as [-> | Hb]; [now rewrite Z.lcm_0_r |].
  cbn [orb]. unfold Z.lcm.
  assert (Hg : 0 < Z.gcd a b).
  { pose proof (Z.gcd_nonneg a b) as Hnn.
    assert (Z.gcd a b <> 0) by (intros H0; apply Z.gcd_eq_0_l in H0; contradiction).
    lia. }
  destruct (Z.gcd_divide_r a b) as [q Hq].
  rewrite Hq at 1 3.
  rewrite Z.div_mul by lia.
  rewrite Z.mul_assoc, Z.abs_mul, (Z.abs_eq (Z.gcd a b)) by lia.
  now rewrite Z.div_mul by lia.
Qed.

Lemma lcm_nonneg (a b : Z) : 0 <= lcm a b.
Proof. rewrite lcm_is_Zlcm. apply Z.lcm_nonneg. Qed.

Lemma lcm_divide_l (a b : Z) : (a | lcm a b).
Proof. rewrite lcm_is_Zlcm. apply Z.divide_lcm_l. Qed.

Lemma lcm_divide_r (a b : Z) : (b | lcm a b).
Proof. rewrite lcm_is_Zlcm. apply Z.divide_lcm_r. Qed.

Lemma hcf_fold_divides (rest : list Z) :
  forall acc : Z,
    let r := fold_left (fun result x => gcd result (Z.abs x)) rest acc in
    (r | acc) /\ forall x, In x rest -> (r | x).
Proof.
  induction rest as [| y rest IH]; intros acc; cbn.
  - split; [apply Z.divide_refl | contradiction].
  - destruct (IH (gcd acc (Z.abs y))) as [Hacc Hrest].
    split.
    + eapply Z.divide_trans; [exact Hacc | apply Z.gcd_divide_l].
    + intros x [<- | Hin]; [| now apply Hrest].
      apply Z.divide_abs_r.
      eapply Z.divide_trans; [exact Hacc | apply Z.gcd_divide_r].
Qed.

Lemma lcm_fold_divides (rest : list Z) :
  forall acc : Z,
    let r := fold_left (fun result x => lcm result (Z.abs x)) rest acc in
    (acc | r) /\ forall x, In x rest -> (Z.abs x | r).
Proof.
  induction rest as [| y rest IH]; intros acc; cbn.
  - split; [apply Z.divide_refl | contradiction].
  - destruct (IH (lcm acc (Z.abs y))) as [Hacc Hrest].
    split.
    + eapply Z.divide_trans; [apply lcm_divide_l | exact Hacc].
    + intros x [<- | Hin]; [| now apply Hrest].
      eapply Z.divide_trans; [apply lcm_divide_r | exact Hacc].
Qed.

Lemma hcf_fold_nonneg (rest : list Z) :
  forall acc : Z,
    0 <= acc -> 0 <= fold_left (fun result x => gcd result (Z.abs x)) rest acc.
Proof.
  induction rest as [| y rest IH]; intros acc Hacc; cbn; [exact Hacc |].
  apply IH, Z.gcd_nonneg.
Qed.

Lemma lcm_fold_nonneg (rest : list Z) :
  forall acc : Z,
    0 <= acc -> 0 <= fold_left (fun result x => lcm result (Z.abs x)) rest acc.
Proof.
  induction rest as [| y rest IH]; intros acc Hacc; cbn; [exact Hacc |].
  apply IH, lcm_nonneg.
Qed.

Lemma fold_left_abs (f : Z -> Z -> Z) (rest : list Z) :
  forall acc : Z,
    fold_left (fun result x => f result (Z.abs x)) (map Z.abs rest) acc
    = fold_left (fun result x => f result (Z.abs x)) rest acc.
Proof.
  induction rest as [| y rest IH]; intros acc; cbn; [reflexivity |].
  now rewrite Z.abs_idemp, IH.
Qed.

Lemma hcf_of_list_divides (nums : list Z) (x : Z) :
  In x nums -> (hcf_of_list nums | x).
Proof.
  destruct nums as [| first rest]; [contradiction |].
  cbn [hcf_of_list].
  destruct (hcf_fold_divides rest (Z.abs first)) as [Hacc Hrest].
  intros [<- | Hin]; [| now apply Hrest].
  apply Z.divide_abs_r. exact Hacc.
Qed.

Lemma lcm_of_list_multiple (nums : list Z) (x : Z) :
  In x nums -> (Z.abs x | lcm_of_list nums).
Proof.
  destruct nums as [| first rest]; [contradiction |].
  cbn [lcm_of_list].
  destruct (lcm_fold_divides rest (Z.abs first)) as [Hacc Hrest].
  intros [<- | Hin]; [exact Hacc | now apply Hrest].
Qed.

End Reducers.

(** C3: on a non-empty sequence, the result of [hcf_of_list] divides every
    element, and the absolute value of every element divides the result of
    [lcm_of_list], zero and negative elements included; where the divisor is
    not zero, the remainder Python computes is zero. *)
Theorem reducers_divide (nums : list Z) (x : Z) (Hne : nums <> []) (Hin : In x nums) :
  (Kernels.hcf_of_list nums | x)
  /\ (Z.abs x | Kernels.lcm_of_list nums)
  /\ (Kernels.hcf_of_list nums <> 0 -> x mod Kernels.hcf_of_list nums = 0)
  /\ (x <> 0 -> Kernels.lcm_of_list nums mod Z.abs x = 0).
Proof.
  pose proof (hcf_of_list_divides nums x Hin) as Hh.
  pose proof (lcm_of_list_multiple nums x Hin) as Hl.
  repeat split; try assumption.
  - intros Hnz. now apply Z.mod_divide.
  - intros Hnz. apply Z.mod_divide; [lia | assumption].
Qed.

Lemma reducers_divide_witness :
  (Kernels.hcf_of_list [12; -18; 0; 24] | -18)
  /\ (Z.abs (-18) | Kernels.lcm_of_list [12; -18; 0; 24]).
Proof.
  destruct (reducers_divide [12; -18; 0; 24] (-18)) as (Hh & Hl & _).
  - discriminate.
  - cbn. tauto.
  - split; assumption.
Defined.

(** C10: on every sequence, the empty one and those with zero or negative
    elements included, [lcm_of_list] and [hcf_of_list] return a nonnegative
    integer; the folds only see absolute values, so the results are those of
    the sequence of absolute values. *)
Theorem reducers_nonneg (nums : list Z) :
  0 <= Kernels.lcm_of_list nums
  /\ 0 <= Kernels.hcf_of_list nums
  /\ Kernels.lcm_of_list nums = Kernels.lcm_of_list (map Z.abs nums)
  /\ Kernels.hcf_of_list nums = Kernels.hcf_of_list (map Z.abs nums).
Proof.
  destruct nums as [| first rest]; cbn [Kernels.lcm_of_list Kernels.hcf_of_list map].
  - repeat split; reflexivity || lia.
  - rewrite Z.abs_idemp, !fold_left_abs.
    repeat split.
    + apply lcm_fold_nonneg, Z.abs_nonneg.
    + apply hcf_fold_nonneg, Z.abs_nonneg.
Qed.

(** ** The primality test *)

Section Primality.

Import Kernels.

Lemma no_divisor_from_spec (count : nat) :
  forall d n : Z,
    no_divisor_from count d n = true
    <-> (forall e : Z, d <= e < d + Z.of_nat count -> n mod e <> 0).
Proof.
  induction count as [| count IH]; intros d n; cbn [no_divisor_from].
  - split; [intros _ e He; lia | reflexivity].
  - destruct (Z.eqb_spec (n mod d) 0) as [Hz | Hnz].
    + split; [discriminate |].
      intros Hall. exfalso. apply (Hall d); [lia | exact Hz].
    + rewrite IH. split.
      * intros Hall e He.
        destruct (Z.eq_dec e d) as [-> | Hne]; [exact Hnz | apply Hall; lia].
      * intros Hall e He. apply Hall. lia.
Qed.

Lemma trial_division_spec (n : Z) :
  trial_division n = true <-> no_proper_divisor n.
Proof.
  unfold trial_division, no_proper_divisor.
  rewrite andb_true_iff, Z.leb_le, no_divisor_from_spec.
  split; intros [Hn Hall]; (split; [exact Hn |]); intros d Hd; apply Hall; lia.
Qed.

Lemma is_prime_loop_spec (fuel : nat) :
  forall n i : Z,
    2 <= i ->
    (Z.to_nat (n - i) < fuel)%nat ->
    exists b : bool,
      is_prime_loop fuel n i = Some b
      /\ (b = true <-> loop_candidates_pass n i).
Proof.
  induction fuel as [| fuel IH]; intros n i Hi Hfuel; [lia |].
  cbn [is_prime_loop].
  destruct (Z.leb_spec (i * i) n) as [Hsq | Hsq].
  - destruct (Z.eqb_spec (n mod i) 0) as [Hz | Hnz]; cbn [orb].
    { exists false. split; [reflexivity |].
      split; [discriminate |].
      intros Hpass. exfalso.
      assert (Hself : (i - i) mod 6 = 0) by now rewrite Z.sub_diag.
      destruct (Hpass i (Z.le_refl i) Hself Hsq) as [Hne _].
      contradiction. }
    destruct (Z.eqb_spec (n mod (i + 2)) 0) as [Hz2 | Hnz2].
    { exists false. split; [reflexivity |].
      split; [discriminate |].
      intros Hpass. exfalso.
      assert (Hself : (i - i) mod 6 = 0) by now rewrite Z.sub_diag.
      destruct (Hpass i (Z.le_refl i) Hself Hsq) as [_ Hne].
      contradiction. }
    destruct (IH n (i + 6)) as (b & Hrun & Hb); [lia | nia |].
    exists b. split; [exact Hrun |].
    rewrite Hb. unfold loop_candidates_pass. split.
    + intros Hpass j Hj Hmod Hjsq.
      destruct (Z.eq_dec j i) as [-> | Hne]; [split; assumption |].
      apply Hpass; try assumption.
      * Z.div_mod_to_equations. lia.
      * replace (j - (i + 6)) with (j - i + (-1) * 6) by lia.
        now rewrite Z.mod_add by lia.
    + intros Hpass j Hj Hmod Hjsq.
      apply Hpass; try assumption; try lia.
      replace (j - i) with (j - (i + 6) + 1 * 6) by lia.
      now rewrite Z.mod_add by lia.
  - exists true. split; [reflexivity |].
    split; [| reflexivity].
    intros _ j Hj _ Hjsq. nia.
Qed.

(** A composite number has a divisor whose square it reaches. *)
Lemma small_divisor (n d : Z) :
  2 <= d < n -> n mod d = 0 ->
  exists m : Z, 2 <= m /\ m * m <= n /\ n mod m = 0.
Proof.
  intros Hd Hmod.
  apply Z.mod_divide in Hmod; [| lia].
  destruct Hmod as [e He].
  assert (He2 : 2 <= e) by nia.
  destruct (Z_le_gt_dec d e) as [Hle | Hgt].
  - exists d. repeat split; [lia | nia |].
    apply Z.mod_divide; [lia | now exists e].
  - exists e. repeat split; [lia | nia |].
    apply Z.mod_divide; [lia | exists d; lia].
Qed.

Lemma mod_of_multiple (n m k : Z) :
  0 < k -> 0 < m -> n mod m = 0 -> m mod k = 0 -> n mod k = 0.
Proof.
  intros Hk Hm Hnm Hmk.
  apply Z.mod_divide in Hnm; [| lia].
  apply Z.mod_divide in Hmk; [| lia].
  apply Z.mod_divide; [lia |].
  eapply Z.divide_trans; eassumption.
Qed.

Lemma loop_pass_no_divisor (n : Z) :
  3 < n -> n mod 2 <> 0 -> n mod 3 <> 0 ->
  loop_candidates_pass n 5 ->
  no_proper_divisor n.
Proof.
  intros Hn H2 H3 Hpass. split; [lia |].
  intros d Hd Hmod.
  destruct (small_divisor n d Hd Hmod) as (m & Hm & Hsq & Hdiv).
  assert (Hm2 : m mod 2 <> 0)
    by (intros H; apply H2; apply (mod_of_multiple n m 2); lia || assumption).
  assert (Hm3 : m mod 3 <> 0)
    by (intros H; apply H3; apply (mod_of_multiple n m 3); lia || assumption).
  assert (Hcases : m mod 6 = 5 \/ (m mod 6 = 1 /\ 7 <= m))
    by (Z.div_mod_to_equations; lia).
  destruct Hcases as [H5 | [H1 H7]].
  - destruct (Hpass m) as [Hne _]; try assumption.
    + Z.div_mod_to_equations; lia.
    + Z.div_mod_to_equations; lia.
    + contradiction.
  - destruct (Hpass (m - 2)) as [_ Hne].
    + lia.
    + Z.div_mod_to_equations; lia.
    + nia.
    + replace (m - 2 + 2) with m in Hne by lia. contradiction.
Qed.

Lemma no_divisor_loop_pass (n : Z) :
  no_proper_divisor n -> loop_candidates_pass n 5.
Proof.
  intros [Hn Hall] j Hj _ Hsq.
  split; apply Hall; nia.
Qed.

(** The loop of [is_prime] ends within the fuel it is given. *)
Lemma is_prime_fuel_enough (n : Z) :
  is_prime_fuel (Z.to_nat n) n = Some (is_prime n).
Proof.
  unfold is_prime, is_prime_fuel.
  destruct (Z.leb_spec n 1); [reflexivity |].
  destruct (Z.leb_spec n 3); [reflexivity |].
  destruct ((n mod 2 =? 0) || (n mod 3 =? 0)); [reflexivity |].
  destruct (is_prime_loop_spec (Z.to_nat n) n 5) as (b & Hrun & _); [lia | lia |].
  now rewrite Hrun.
Qed.

Lemma is_prime_spec (n : Z) :
  is_prime n = true <-> no_proper_divisor n.
Proof.
  unfold is_prime, is_prime_fuel.
  destruct (Z.leb_spec n 1) as [H1 | H1].
  { split; [discriminate | intros [Hn _]; lia]. }
  destruct (Z.leb_spec n 3) as [H3 | H3].
  { split; [| reflexivity]. intros _. split; [lia |].
    intros d Hd. assert (Hnd : n = 3 /\ d = 2) by lia.
    destruct Hnd as [-> ->]. discriminate. }
  destruct (Z.eqb_spec (n mod 2) 0) as [Hm2 | Hm2]; cbn [orb].
  { split; [discriminate |]. intros [_ Hall]. exfalso. apply (Hall 2); lia. }
  destruct (Z.eqb_spec (n mod 3) 0) as [Hm3 | Hm3].
  { split; [discriminate |]. intros [_ Hall]. exfalso. apply (Hall 3); lia. }
  destruct (is_prime_loop_spec (Z.to_nat n) n 5) as (b & Hrun & Hb); [lia | lia |].
  rewrite Hrun, Hb. split.
  - now apply loop_pass_no_divisor.
  - apply no_divisor_loop_pass.
Qed.

Lemma is_prime_trial_division (n : Z) : is_prime n = trial_division n.
Proof.
  apply eq_true_iff_eq. rewrite is_prime_spec, trial_division_spec. reflexivity.
Qed.

Lemma is_prime_small (n : Z) : n <= 1 -> is_prime n = false.
Proof.
  intros Hn. unfold is_prime, is_prime_fuel.
  now destruct (Z.leb_spec n 1); [| lia].
Qed.

End Primality.

(** C6: on every integer from -1000 to 10000 [is_prime] returns, and returns
    what trial division by every candidate from 2 to n - 1 gives; 2 is prime;
    1, 0 and -7 are not; no integer up to 1 is. *)
Theorem is_prime_agrees (n m : Z) (Hn : -1000 <= n <= 10000) :
  Kernels.is_prime_fuel (Z.to_nat n) n = Some (Kernels.is_prime n)
  /\ Kernels.is_prime n = Kernels.trial_division n
  /\ Kernels.is_prime 2 = true
  /\ Kernels.is_prime 1 = false
  /\ Kernels.is_prime 0 = false
  /\ Kernels.is_prime (-7) = false
  /\ (m <= 1 -> Kernels.is_prime m = false).
Proof.
  split; [apply is_prime_fuel_enough |].
  split; [apply is_prime_trial_division |].
  repeat split; try reflexivity.
  apply is_prime_small.
Qed.

Lemma is_prime_agrees_witness :
  -1000 <= 9973 <= 10000
  /\ Kernels.is_prime 9973 = Kernels.trial_division 9973
  /\ Kernels.trial_division 9973 = true.
Proof.
  split; [lia |].
  destruct (is_prime_agrees 9973 0 ltac:(lia)) as (_ & Hagree & _).
  split; [exact Hagree | vm_compute; reflexivity].
Defined.

(** ** The first word of a text *)

Section FirstWord.

Import Text.

Local Open Scope string_scope.

Lemma letter_is_letter_or_hyphen (c : ascii) :
  is_letter c = true -> is_letter_or_hyphen c = true.
Proof. unfold is_letter, is_letter_or_hyphen. intros ->. reflexivity. Qed.

(** With nothing after it the second repetition takes every character of
    its class, and the first one never has to give a character back. *)
Lemma match_star_last (cls : ascii -> bool) (s : string) :
  match_star cls s (fun _ => Some O) = Some (span cls s).
Proof.
  induction s as [| c s IH]; cbn; [reflexivity |].
  destruct (cls c); [now rewrite IH | reflexivity].
Qed.

Lemma match_star_letters_then_rest (s : string) :
  match_star is_letter s (fun rest => match_star is_letter_or_hyphen rest (fun _ => Some O))
  = Some (span is_letter_or_hyphen s).
Proof.
  induction s as [| c s IH]; [reflexivity |].
  cbn [match_star span].
  destruct (is_letter c) eqn:Hc.
  - now rewrite IH, (letter_is_letter_or_hyphen c Hc).
  - rewrite match_star_last.
    destruct (is_letter_or_hyphen c); reflexivity.
Qed.

Lemma match_here_word (s : string) :
  match_here word_pattern s (fun _ => Some O)
  = match s with
    | String c s' =>
        if is_letter c then Some (S (span is_letter_or_hyphen s')) else None
    | EmptyString => None
    end.
Proof.
  destruct s as [| c s']; [reflexivity |].
  cbn [word_pattern match_here].
  destruct (is_letter c); [| reflexivity].
  now rewrite match_star_letters_then_rest.
Qed.

Lemma substring_span (cls : ascii -> bool) (s : string) :
  exists suffix,
    s = substring 0 (span cls s) s ++ suffix
    /\ all_chars cls (substring 0 (span cls s) s) = true
    /\ match suffix with
       | String c _ => cls c = false
       | EmptyString => True
       end.
Proof.
  induction s as [| c s (suffix & Heq & Hall & Hend)].
  - exists "". repeat split.
  - cbn [span]. destruct (cls c) eqn:Hc.
    + exists suffix. cbn [substring append all_chars].
      rewrite Hc, Hall, <- Heq. repeat split. exact Hend.
    + exists (String c s). cbn. repeat split. exact Hc.
Qed.

Lemma re_search_word_none (s : string) :
  has_letter s = false -> re_search word_pattern s = None.
Proof.
  induction s as [| c s IH]; cbn [has_letter re_search]; rewrite match_here_word.
  - reflexivity.
  - intros H. apply orb_false_iff in H. destruct H as [Hc Hs].
    rewrite Hc. now apply IH.
Qed.

Lemma re_search_word_some (s : string) :
  has_letter s = true ->
  exists before word suffix,
    re_search word_pattern s = Some word
    /\ s = before ++ word ++ suffix
    /\ has_letter before = false
    /\ is_word word = true
    /\ run_ends suffix = true.
Proof.
  induction s as [| c s IH]; cbn [has_letter]; [discriminate |].
  intros H. cbn [re_search]. rewrite match_here_word.
  destruct (is_letter c) eqn:Hc.
  - destruct (substring_span is_letter_or_hyphen s) as (suffix & Heq & Hall & Hend).
    exists "", (String c (substring 0 (span is_letter_or_hyphen s) s)), suffix.
    cbn [substring append has_letter is_word].
    rewrite <- Heq, Hc, Hall. repeat split.
    destruct suffix; [reflexivity | cbn; now rewrite Hend].
  - cbn [orb] in H.
    destruct (IH H) as (before & word & suffix & Hrun & Heq & Hpre & Hword & Hend).
    exists (String c before), word, suffix.
    cbn [append has_letter]. rewrite Hc, Hpre, <- Heq. repeat split; assumption.
Qed.

End FirstWord.

(** C8: on every text, [first_word] returns the empty string when the text
    has no letter, and otherwise the first maximal run of the pattern: the
    text is some letterless part, then the returned word, a letter followed
    by letters and hyphens, then a rest that does not go on with a letter or
    a hyphen; so the result is empty exactly when the text has no letter. *)
Theorem first_word_correct (text : string) :
  ((Text.has_letter text = false /\ Text.first_word text = EmptyString)
   \/ (Text.has_letter text = true
       /\ exists before suffix : string,
            text = (before ++ Text.first_word text ++ suffix)%string
            /\ Text.has_letter before = false
            /\ Text.is_word (Text.first_word text) = true
            /\ Text.run_ends suffix = true))
  /\ String.eqb (Text.first_word text) EmptyString = negb (Text.has_letter text).
Proof.
  unfold Text.first_word.
  destruct (Text.has_letter text) eqn:Hletter.
  - destruct (re_search_word_some text Hletter)
      as (before & word & suffix & Hrun & Heq & Hpre & Hword & Hend).
    rewrite Hrun. split.
    + right. split; [reflexivity |]. now exists before, suffix.
    + destruct word; [discriminate | reflexivity].
  - rewrite (re_search_word_none text Hletter). split; [| reflexivity].
    left. split; reflexivity.
Qed.

(** ** The dispatcher *)

Section Dispatcher.

Import Kernels Text Service.

Variable cfg : Config.
Variable requests_post : string -> json -> post_outcome.

(** [bfhl] on a request that has one field. *)
Lemma bfhl_only_fibonacci (n : Z) :
  Service.bfhl cfg requests_post (only_fibonacci n)
  = if (n <? 0) || (n >? 1000) then
      Raise (HTTPException 400 "fibonacci out of allowed range")
    else Return (success_body cfg (DataList (fibonacci_series n))).
Proof. unfold Service.bfhl. cbn. destruct ((n <? 0) || (n >? 1000)); reflexivity. Qed.

Lemma bfhl_only_prime (arr : list Z) :
  Service.bfhl cfg requests_post (only_prime arr)
  = if (Z.of_nat (length arr) =? 0) || (Z.of_nat (length arr) >? 1000) then
      Raise (HTTPException 400 "prime array size invalid")
    else Return (success_body cfg (DataList (filter is_prime arr))).
Proof.
  unfold Service.bfhl. cbn.
  destruct ((Z.of_nat (length arr) =? 0) || (Z.of_nat (length arr) >? 1000)); reflexivity.
Qed.

Lemma bfhl_only_lcm (arr : list Z) :
  Service.bfhl cfg requests_post (only_lcm arr)
  = if (Z.of_nat (length arr) =? 0) || (Z.of_nat (length arr) >? 1000) then
      Raise (HTTPException 400 "lcm array size invalid")
    else Return (success_body cfg (DataInt (lcm_of_list arr))).
Proof.
  unfold Service.bfhl. cbn.
  destruct ((Z.of_nat (length arr) =? 0) || (Z.of_nat (length arr) >? 1000)); reflexivity.
Qed.

Lemma bfhl_only_hcf (arr : list Z) :
  Service.bfhl cfg requests_post (only_hcf arr)
  = if (Z.of_nat (length arr) =? 0) || (Z.of_nat (length arr) >? 1000) then
      Raise (HTTPException 400 "hcf array size invalid")
    else Return (success_body cfg (DataInt (hcf_of_list arr))).
Proof.
  unfold Service.bfhl. cbn.
  destruct ((Z.of_nat (length arr) =? 0) || (Z.of_nat (length arr) >? 1000)); reflexivity.
Qed.

Lemma bfhl_only_AI (q : string) :
  Service.bfhl cfg requests_post (only_AI q)
  = if (Text.len (strip q) =? 0) || (Text.len q >? 300) then
      Raise (HTTPException 400 "AI must be non-empty question")
    else
      match ask_ai_single_word cfg requests_post (strip q) with
      | Return word => Return (success_body cfg (DataStr word))
      | Raise e => Raise e
      end.
Proof.
  unfold Service.bfhl. cbn -[Service.ask_ai_single_word strip Text.len].
  destruct ((Text.len (strip q) =? 0) || (Text.len q >? 300)); [reflexivity |].
  destruct (ask_ai_single_word cfg requests_post (strip q)); reflexivity.
Qed.

(** The resolver raises no [HTTPException] with status 400. *)
Lemma ask_ai_single_word_not_400 (question detail : string) :
  ask_ai_single_word cfg requests_post question <> Raise (HTTPException 400 detail).
Proof.
  unfold ask_ai_single_word, bind, option_bind.
  repeat case_innermost; discriminate.
Qed.

(** A body [bfhl] returns is a success body. *)
Lemma bfhl_return_body (req : BFHLRequest) (body : envelope) :
  Service.bfhl cfg requests_post req = Return body ->
  exists d : payload, body = success_body cfg d.
Proof.
  unfold Service.bfhl.
  destruct (negb _); [discriminate |].
  destruct (provided_keys req) as [| key keys]; [discriminate |].
  match goal with
  | |- bind ?m _ = _ -> _ => destruct m as [d | e]
  end; cbn [bind]; [| discriminate].
  intros [= <-]. now exists d.
Qed.

End Dispatcher.

(** C1: [bfhl] raises the [HTTPException] with status 400 and detail
    "Provide exactly one functional key" exactly when the number of fields
    of the request that are not [None] is not 1, whatever the values of the
    fields, the configuration and the provider. *)
Theorem exactly_one_key
    (cfg : Service.Config)
    (requests_post : string -> Service.json -> Service.post_outcome)
    (req : Service.BFHLRequest) :
  Service.bfhl cfg requests_post req
  = Service.Raise (Service.HTTPException 400 "Provide exactly one functional key")
  <-> Service.present_count req <> 1.
Proof.
  destruct req as [[n |] [p |] [l |] [h |] [q |]];
    try (split; [intros _; cbn; discriminate | intros _; reflexivity]);
    (split; [intros H; exfalso | intros H; cbn in H; contradiction]).
  - fold (Service.only_fibonacci n) in H.
    rewrite bfhl_only_fibonacci in H.
    destruct ((n <? 0) || (n >? 1000)); discriminate.
  - fold (Service.only_prime p) in H.
    rewrite bfhl_only_prime in H.
    destruct ((Z.of_nat (length p) =? 0) || (Z.of_nat (length p) >? 1000)); discriminate.
  - fold (Service.only_lcm l) in H.
    rewrite bfhl_only_lcm in H.
    destruct ((Z.of_nat (length l) =? 0) || (Z.of_nat (length l) >? 1000)); discriminate.
  - fold (Service.only_hcf h) in H.
    rewrite bfhl_only_hcf in H.
    destruct ((Z.of_nat (length h) =? 0) || (Z.of_nat (length h) >? 1000)); discriminate.
  - fold (Service.only_AI q) in H.
    rewrite bfhl_only_AI in H.
    destruct ((Text.len (Text.strip q) =? 0) || (Text.len q >? 300)); [discriminate |].
    destruct (Service.ask_ai_single_word cfg requests_post (Text.strip q)) eqn:Hask;
      [discriminate |].
    injection H as ->.
    exact (ask_ai_single_word_not_400 cfg requests_post _ _ Hask).
Qed.

(** C4: with no provider key configured, [ask_ai_single_word] returns
    "Mumbai" exactly when the stripped, lower-cased question is the known
    question, and raises the [HTTPException] with status 500 and detail
    "AI provider key not configured" on every other question; so [bfhl] on
    the request whose only field is the question "What is the capital city
    of Maharashtra?" returns a body whose [is_success] is true, whose [data]
    is "Mumbai" and which has no [error]. *)
Theorem degraded_mode
    (cfg : Service.Config)
    (requests_post : string -> Service.json -> Service.post_outcome)
    (question : string)
    (Hkey : Service.no_api_key cfg = true) :
  (Service.ask_ai_single_word cfg requests_post question = Service.Return "Mumbai"%string
   <-> Text.lower (Text.strip question) = Service.known_question)
  /\ (Text.lower (Text.strip question) <> Service.known_question ->
      Service.ask_ai_single_word cfg requests_post question
      = Service.Raise (Service.HTTPException 500 "AI provider key not configured"))
  /\ Service.bfhl cfg requests_post
       (Service.only_AI "What is the capital city of Maharashtra?")
     = Service.Return (Service.success_body cfg (Service.DataStr "Mumbai"))
  /\ match Service.bfhl cfg requests_post
             (Service.only_AI "What is the capital city of Maharashtra?") with
     | Service.Return body =>
         Service.is_success body = true
         /\ Service.data body = Some (Service.DataStr "Mumbai")
         /\ Service.error body = None
     | Service.Raise _ => False
     end.
Proof.
  assert (Hask : forall q,
             Service.ask_ai_single_word cfg requests_post q
             = if String.eqb (Text.lower (Text.strip q)) Service.known_question
               then Service.Return "Mumbai"%string
               else Service.Raise
                      (Service.HTTPException 500 "AI provider key not configured")).
  { intros q. unfold Service.ask_ai_single_word. now rewrite Hkey. }
  assert (Hrun : Service.bfhl cfg requests_post
                   (Service.only_AI "What is the capital city of Maharashtra?")
                 = Service.Return (Service.success_body cfg (Service.DataStr "Mumbai")))
    by (rewrite bfhl_only_AI, Hask; reflexivity).
  split; [| split; [| split]].
  - rewrite Hask.
    destruct (String.eqb_spec (Text.lower (Text.strip question)) Service.known_question)
      as [Heq | Hne].
    + split; [intros _; exact Heq | reflexivity].
    + split; [discriminate | contradiction].
  - intros Hne. rewrite Hask.
    now destruct (String.eqb_spec (Text.lower (Text.strip question)) Service.known_question).
  - exact Hrun.
  - rewrite Hrun. cbn. repeat split.
Qed.

Lemma degraded_mode_witness :
  Service.no_api_key Service.default_config = true
  /\ Service.ask_ai_single_word Service.default_config Service.unreachable_provider
       "  What is the CAPITAL city of Maharashtra?  "
     = Service.Return "Mumbai"%string
  /\ Service.ask_ai_single_word Service.default_config Service.unreachable_provider
       "What is the capital of Maharashtra?"
     = Service.Raise (Service.HTTPException 500 "AI provider key not configured")
  /\ match Service.bfhl Service.default_config Service.unreachable_provider
             (Service.only_AI "What is the capital city of Maharashtra?") with
     | Service.Return body =>
         Service.is_success body = true
         /\ Service.data body = Some (Service.DataStr "Mumbai")
         /\ Service.error body = None
     | Service.Raise _ => False
     end.
Proof.
  split; [reflexivity |].
  split; [| split].
  - apply (degraded_mode Service.default_config Service.unreachable_provider
             "  What is the CAPITAL city of Maharashtra?  " eq_refl).
    reflexivity.
  - apply (degraded_mode Service.default_config Service.unreachable_provider
             "What is the capital of Maharashtra?" eq_refl).
    discriminate.
  - exact (proj2 (proj2 (proj2
             (degraded_mode Service.default_config Service.unreachable_provider
                "What is the capital of Maharashtra?" eq_refl)))).
Defined.

(** C5: on a request whose only field is [fibonacci], [bfhl] returns when the
    value is from 0 to 1000 and raises an [HTTPException] with status 400
    otherwise; on a request whose only field is [prime], [lcm] or [hcf], it
    returns when the sequence has from 1 to 1000 elements and raises an
    [HTTPException] with status 400 otherwise; it raises one on
    [fibonacci = 1001] and on [prime = []]. *)
Theorem payload_validation
    (cfg : Service.Config)
    (requests_post : string -> Service.json -> Service.post_outcome)
    (n : Z) (arr : list Z) :
  let valid_size := (1 <=? Z.of_nat (length arr)) && (Z.of_nat (length arr) <=? 1000) in
  Service.bfhl cfg requests_post (Service.only_fibonacci n)
  = (if (0 <=? n) && (n <=? 1000)
     then Service.Return
            (Service.success_body cfg (Service.DataList (Kernels.fibonacci_series n)))
     else Service.Raise (Service.HTTPException 400 "fibonacci out of allowed range"))
  /\ Service.bfhl cfg requests_post (Service.only_prime arr)
     = (if valid_size
        then Service.Return
               (Service.success_body cfg
                  (Service.DataList (filter Kernels.is_prime arr)))
        else Service.Raise (Service.HTTPException 400 "prime array size invalid"))
  /\ Service.bfhl cfg requests_post (Service.only_lcm arr)
     = (if valid_size
        then Service.Return
               (Service.success_body cfg (Service.DataInt (Kernels.lcm_of_list arr)))
        else Service.Raise (Service.HTTPException 400 "lcm array size invalid"))
  /\ Service.bfhl cfg requests_post (Service.only_hcf arr)
     = (if valid_size
        then Service.Return
               (Service.success_body cfg (Service.DataInt (Kernels.hcf_of_list arr)))
        else Service.Raise (Service.HTTPException 400 "hcf array size invalid"))
  /\ Service.is_invalid_input
       (Service.bfhl cfg requests_post (Service.only_fibonacci 1001)) = true
  /\ Service.is_invalid_input
       (Service.bfhl cfg requests_post (Service.only_prime [])) = true.
Proof.
  intros valid_size.
  assert (Hsize : (Z.of_nat (length arr) =? 0) || (Z.of_nat (length arr) >? 1000)
                  = negb valid_size).
  { unfold valid_size.
    destruct (Z.eqb_spec (Z.of_nat (length arr)) 0),
      (Z.gtb_spec (Z.of_nat (length arr)) 1000),
      (Z.leb_spec 1 (Z.of_nat (length arr))),
      (Z.leb_spec (Z.of_nat (length arr)) 1000); cbn; lia || reflexivity. }
  assert (Hrange : (n <? 0) || (n >? 1000) = negb ((0 <=? n) && (n <=? 1000))).
  { destruct (Z.ltb_spec n 0), (Z.gtb_spec n 1000),
      (Z.leb_spec 0 n), (Z.leb_spec n 1000); cbn; lia || reflexivity. }
  rewrite bfhl_only_fibonacci, bfhl_only_prime, bfhl_only_lcm, bfhl_only_hcf.
  rewrite Hsize, Hrange.
  repeat split; try reflexivity.
  - now destruct ((0 <=? n) && (n <=? 1000)).
  - now destruct valid_size.
  - now destruct valid_size.
  - now destruct valid_size.
Qed.

(** C7: on a request whose only field is [prime], with a sequence of 1 to 1000
    integers, [bfhl] returns a body whose [is_success] is true, which has no
    [error], and whose [data] is the elements [is_prime] accepts, in their
    order; these are the elements that trial division finds prime; on
    [2; 3; 4; 5; 9; 11] the [data] is [2; 3; 5; 11]. *)
Theorem prime_filter
    (cfg : Service.Config)
    (requests_post : string -> Service.json -> Service.post_outcome)
    (arr : list Z)
    (Hsize : 1 <= Z.of_nat (length arr) <= 1000) :
  Service.bfhl cfg requests_post (Service.only_prime arr)
  = Service.Return
      (Service.success_body cfg (Service.DataList (filter Kernels.is_prime arr)))
  /\ filter Kernels.is_prime arr = filter Kernels.trial_division arr
  /\ Service.bfhl cfg requests_post (Service.only_prime [2; 3; 4; 5; 9; 11])
     = Service.Return (Service.success_body cfg (Service.DataList [2; 3; 5; 11]))
  /\ match Service.bfhl cfg requests_post (Service.only_prime arr) with
     | Service.Return body =>
         Service.is_success body = true
         /\ Service.data body = Some (Service.DataList (filter Kernels.is_prime arr))
         /\ Service.data body
            = Some (Service.DataList (filter Kernels.trial_division arr))
         /\ Service.error body = None
     | Service.Raise _ => False
     end
  /\ match Service.bfhl cfg requests_post (Service.only_prime [2; 3; 4; 5; 9; 11]) with
     | Service.Return body =>
         Service.is_success body = true
         /\ Service.data body = Some (Service.DataList [2; 3; 5; 11])
         /\ Service.error body = None
     | Service.Raise _ => False
     end.
Proof.
  assert (Hrun : Service.bfhl cfg requests_post (Service.only_prime arr)
                 = Service.Return
                     (Service.success_body cfg
                        (Service.DataList (filter Kernels.is_prime arr)))).
  { rewrite bfhl_only_prime.
    destruct (Z.eqb_spec (Z.of_nat (length arr)) 0); [lia |].
    destruct (Z.gtb_spec (Z.of_nat (length arr)) 1000); [lia |].
    reflexivity. }
  assert (Hfilter : filter Kernels.is_prime arr = filter Kernels.trial_division arr)
    by (apply filter_ext; intros x; apply is_prime_trial_division).
  assert (Hexample : Service.bfhl cfg requests_post
                       (Service.only_prime [2; 3; 4; 5; 9; 11])
                     = Service.Return
                         (Service.success_body cfg (Service.DataList [2; 3; 5; 11])))
    by (rewrite bfhl_only_prime; reflexivity).
  split; [exact Hrun |].
  split; [exact Hfilter |].
  split; [exact Hexample |].
  split.
  - rewrite Hrun. cbn. rewrite <- Hfilter. repeat split.
  - rewrite Hexample. cbn. repeat split.
Qed.

Lemma prime_filter_witness :
  1 <= Z.of_nat (length [7; -7; 0; 1; 25; 49; 97; 7]) <= 1000
  /\ Service.bfhl Service.default_config Service.unreachable_provider
       (Service.only_prime [7; -7; 0; 1; 25; 49; 97; 7])
     = Service.Return
         (Service.success_body Service.default_config (Service.DataList [7; 97; 7]))
  /\ match Service.bfhl Service.default_config Service.unreachable_provider
             (Service.only_prime [7; -7; 0; 1; 25; 49; 97; 7]) with
     | Service.Return body => Service.data body = Some (Service.DataList [7; 97; 7])
     | Service.Raise _ => False
     end.
Proof.
  assert (Hsize : 1 <= Z.of_nat (length [7; -7; 0; 1; 25; 49; 97; 7]) <= 1000)
    by (cbn; lia).
  split; [exact Hsize |].
  destruct (prime_filter Service.default_config Service.unreachable_provider
              [7; -7; 0; 1; 25; 49; 97; 7] Hsize) as (Hrun & _ & _ & Hdata & _).
  split; [exact Hrun |].
  destruct (Service.bfhl Service.default_config Service.unreachable_provider
              (Service.only_prime [7; -7; 0; 1; 25; 49; 97; 7])) as [body | e];
    [| contradiction].
  destruct Hdata as (_ & Hdata & _). exact Hdata.
Defined.

(** C9: the envelope built for a result of [bfhl] has [is_success] true
    exactly when the result is a returned body and false when it is a raised
    exception of either kind, and its [official_email] is the configured one;
    the handler of [HTTPException] and the handler of [Exception], through
    which a failure of [bfhl] goes, each build an envelope with [is_success]
    false and the configured [official_email]. *)
Theorem envelope_consistent
    (cfg : Service.Config)
    (requests_post : string -> Service.json -> Service.post_outcome)
    (request_path : string) (req : Service.BFHLRequest)
    (status_code : Z) (detail : string) :
  let response :=
    Service.respond cfg request_path (Service.bfhl cfg requests_post req) in
  Service.is_success (Service.content response)
  = Service.is_return (Service.bfhl cfg requests_post req)
  /\ Service.official_email (Service.content response) = Service.OFFICIAL_EMAIL cfg
  /\ Service.is_success
       (Service.content (Service.http_exception_handler cfg request_path status_code detail))
     = false
  /\ Service.official_email
       (Service.content (Service.http_exception_handler cfg request_path status_code detail))
     = Service.OFFICIAL_EMAIL cfg
  /\ Service.is_success
       (Service.content (Service.unhandled_exception_handler cfg request_path))
     = false
  /\ Service.official_email
       (Service.content (Service.unhandled_exception_handler cfg request_path))
     = Service.OFFICIAL_EMAIL cfg.
Proof.
  intros response. subst response.
  destruct (Service.bfhl cfg requests_post req) as [body | [code detail' | class]] eqn:Hrun.
  - destruct (bfhl_return_body cfg requests_post req body Hrun) as [d ->].
    repeat split.
  - repeat split.
  - repeat split.
Qed.

(** ** Further properties of the reducers *)

Section ReducersMore.

Import Kernels.

Lemma hcf_fold_greatest (rest : list Z) :
  forall acc d : Z,
    (d | acc) -> (forall x, In x rest -> (d | x)) ->
    (d | fold_left (fun result x => gcd result (Z.abs x)) rest acc).
Proof.
  induction rest as [| y rest IH]; intros acc d Hacc Hrest; cbn; [exact Hacc |].
  apply IH.
  - apply Z.gcd_greatest; [exact Hacc |].
    apply Z.divide_abs_r, Hrest. now left.
  - intros x Hx. apply Hrest. now right.
Qed.

Lemma lcm_fold_least (rest : list Z) :
  forall acc m : Z,
    (acc | m) -> (forall x, In x rest -> (x | m)) ->
    (fold_left (fun result x => lcm result (Z.abs x)) rest acc | m).
Proof.
  induction rest as [| y rest IH]; intros acc m Hacc Hrest; cbn; [exact Hacc |].
  apply IH.
  - rewrite lcm_is_Zlcm. apply Z.lcm_least; [exact Hacc |].
    apply Z.divide_abs_l, Hrest. now left.
  - intros x Hx. apply Hrest. now right.
Qed.

Lemma hcf_of_list_greatest_divisor (nums : list Z) (d : Z) :
  (forall x, In x nums -> (d | x)) -> (d | hcf_of_list nums).
Proof.
  destruct nums as [| first rest]; intros Hall; cbn [hcf_of_list].
  - apply Z.divide_0_r.
  - apply hcf_fold_greatest.
    + apply Z.divide_abs_r, Hall. now left.
    + intros x Hx. apply Hall. now right.
Qed.

Lemma lcm_of_list_least_multiple (nums : list Z) (m : Z) :
  nums <> [] -> (forall x, In x nums -> (x | m)) -> (lcm_of_list nums | m).
Proof.
  destruct nums as [| first rest]; intros Hne Hall; [contradiction |].
  cbn [lcm_of_list]. apply lcm_fold_least.
  - apply Z.divide_abs_l, Hall. now left.
  - intros x Hx. apply Hall. now right.
Qed.

Lemma hcf_of_list_nonneg (nums : list Z) : 0 <= hcf_of_list nums.
Proof.
  destruct nums as [| first rest]; cbn [hcf_of_list]; [lia |].
  apply hcf_fold_nonneg, Z.abs_nonneg.
Qed.

Lemma lcm_of_list_nonneg (nums : list Z) : 0 <= lcm_of_list nums.
Proof.
  destruct nums as [| first rest]; cbn [lcm_of_list]; [lia |].
  apply lcm_fold_nonneg, Z.abs_nonneg.
Qed.

Lemma lcm_fold_zero (rest : list Z) :
  forall acc : Z,
    fold_left (fun result x => lcm result (Z.abs x)) rest acc = 0
    <-> acc = 0 \/ In 0 rest.
Proof.
  induction rest as [| y rest IH]; intros acc; cbn [fold_left In].
  - tauto.
  - rewrite IH, lcm_is_Zlcm, Z.lcm_eq_0, Z.abs_0_iff.
    split; intros H; repeat destruct H as [H | H]; auto.
Qed.

Lemma hcf_fold_zero (rest : list Z) :
  forall acc : Z,
    fold_left (fun result x => gcd result (Z.abs x)) rest acc = 0
    <-> acc = 0 /\ forall x, In x rest -> x = 0.
Proof.
  induction rest as [| y rest IH]; intros acc; cbn [fold_left In].
  - split; [intros H; split; [exact H | contradiction] | tauto].
  - rewrite IH. unfold gcd. split.
    + intros [Hg Hrest].
      pose proof (Z.gcd_eq_0_l _ _ Hg) as Hacc.
      pose proof (Z.gcd_eq_0_r _ _ Hg) as Hy.
      split; [exact Hacc |].
      intros x [<- | Hx]; [lia | now apply Hrest].
    + intros [-> Hall]. split.
      * rewrite (Hall y) by now left. reflexivity.
      * intros x Hx. apply Hall. now right.
Qed.

Lemma gcd_mul_lcm (a b : Z) : gcd a b * lcm a b = Z.abs (a * b).
Proof.
  unfold lcm, gcd.
  destruct (Z.eqb_spec a 0) as [-> | Ha]; [cbn; lia |].
  destruct (Z.eqb_spec b 0) as [-> | Hb]; [cbn; rewrite Z.mul_0_r; lia |].
  cbn [orb].
  assert (Hg : Z.gcd a b <> 0) by (intros H0; apply Z.gcd_eq_0_l in H0; contradiction).
  assert (Hdiv : (Z.gcd a b | Z.abs (a * b))).
  { apply Z.divide_abs_r, Z.divide_mul_l, Z.gcd_divide_l. }
  destruct Hdiv as [q Hq]. rewrite Hq, Z.div_mul by exact Hg. lia.
Qed.

End ReducersMore.

(** X1: [lcm a b] is a common multiple of [a] and [b] that divides every
    common multiple, and its product with [gcd a b] is the absolute value
    of [a * b]. *)
Theorem lcm_least_common_multiple (a b m : Z) (Ha : (a | m)) (Hb : (b | m)) :
  (a | Kernels.lcm a b)
  /\ (b | Kernels.lcm a b)
  /\ (Kernels.lcm a b | m)
  /\ Kernels.gcd a b * Kernels.lcm a b = Z.abs (a * b).
Proof.
  rewrite lcm_is_Zlcm. unfold Kernels.gcd.
  repeat split.
  - apply Z.divide_lcm_l.
  - apply Z.divide_lcm_r.
  - now apply Z.lcm_least.
  - rewrite <- lcm_is_Zlcm. apply gcd_mul_lcm.
Qed.

Lemma lcm_least_common_multiple_witness :
  (Kernels.lcm (-4) 6 | 24) /\ Kernels.gcd (-4) 6 * Kernels.lcm (-4) 6 = 24.
Proof.
  assert (Ha : (-4 | 24)) by (exists (-6); reflexivity).
  assert (Hb : (6 | 24)) by (exists 4; reflexivity).
  destruct (lcm_least_common_multiple (-4) 6 24 Ha Hb) as (_ & _ & Hleast & Hprod).
  split; [exact Hleast | exact Hprod].
Defined.

(** X2: every integer that divides all the elements of a sequence divides
    the result of [hcf_of_list], and is no larger in absolute value unless
    the result is 0: the result is the greatest common divisor of the whole
    sequence. *)
Theorem hcf_of_list_greatest (nums : list Z) (d : Z)
    (Hall : forall x, In x nums -> (d | x)) :
  (d | Kernels.hcf_of_list nums)
  /\ (if Kernels.hcf_of_list nums =? 0 then True
      else Z.abs d <= Kernels.hcf_of_list nums).
Proof.
  pose proof (hcf_of_list_greatest_divisor nums d Hall) as Hdiv.
  split; [exact Hdiv |].
  destruct (Z.eqb_spec (Kernels.hcf_of_list nums) 0) as [_ | Hnz]; [exact I |].
  pose proof (hcf_of_list_nonneg nums) as Hnn.
  apply Z.divide_abs_l in Hdiv.
  apply Z.divide_pos_le; [lia | exact Hdiv].
Qed.

Lemma hcf_of_list_greatest_witness :
  (3 | Kernels.hcf_of_list [12; -18; 24]) /\ Z.abs 3 <= Kernels.hcf_of_list [12; -18; 24].
Proof.
  apply (hcf_of_list_greatest [12; -18; 24] 3).
  intros x [<- | [<- | [<- | []]]];
    [exists 4 | exists (-6) | exists 8]; reflexivity.
Defined.

(** X3: every common multiple of the elements of a non-empty sequence is a
    multiple of the result of [lcm_of_list], and is no smaller in absolute
    value unless it is 0: the result is the least common multiple of the
    whole sequence. *)
Theorem lcm_of_list_least (nums : list Z) (m : Z)
    (Hne : nums <> [])
    (Hall : forall x, In x nums -> (x | m)) :
  (Kernels.lcm_of_list nums | m)
  /\ (if m =? 0 then True else Kernels.lcm_of_list nums <= Z.abs m).
Proof.
  pose proof (lcm_of_list_least_multiple nums m Hne Hall) as Hdiv.
  split; [exact Hdiv |].
  destruct (Z.eqb_spec m 0) as [_ | Hnz]; [exact I |].
  apply Z.divide_abs_r in Hdiv.
  apply Z.divide_pos_le; [lia | exact Hdiv].
Qed.

Lemma lcm_of_list_least_witness :
  (Kernels.lcm_of_list [4; -6; 10] | 120) /\ Kernels.lcm_of_list [4; -6; 10] <= Z.abs 120.
Proof.
  apply (lcm_of_list_least [4; -6; 10] 120).
  - discriminate.
  - intros x [<- | [<- | [<- | []]]];
      [exists 30 | exists (-20) | exists 12]; reflexivity.
Defined.

(** X4: the results of [hcf_of_list] and [lcm_of_list] do not depend on the
    order of the elements. *)
Theorem reducers_order_independent (nums nums' : list Z)
    (Hperm : Permutation nums nums') :
  Kernels.hcf_of_list nums = Kernels.hcf_of_list nums'
  /\ Kernels.lcm_of_list nums = Kernels.lcm_of_list nums'.
Proof.
  split.
  - apply Z.divide_antisym_nonneg; try apply hcf_of_list_nonneg.
    + apply hcf_of_list_greatest_divisor. intros x Hx.
      apply hcf_of_list_divides. now apply (Permutation_in x (Permutation_sym Hperm)).
    + apply hcf_of_list_greatest_divisor. intros x Hx.
      apply hcf_of_list_divides. now apply (Permutation_in x Hperm).
  - destruct nums as [| first rest].
    + apply Permutation_nil in Hperm. now subst.
    + assert (Hne' : nums' <> []).
      { intros ->. apply Permutation_sym, Permutation_nil in Hperm. discriminate. }
      apply Z.divide_antisym_nonneg; try apply lcm_of_list_nonneg.
      * apply lcm_of_list_least_multiple; [discriminate |]. intros x Hx.
        apply Z.divide_abs_l, lcm_of_list_multiple. now apply (Permutation_in x Hperm).
      * apply lcm_of_list_least_multiple; [exact Hne' |]. intros x Hx.
        apply Z.divide_abs_l, lcm_of_list_multiple.
        now apply (Permutation_in x (Permutation_sym Hperm)).
Qed.

Lemma reducers_order_independent_witness :
  Kernels.hcf_of_list [12; 18; 24] = Kernels.hcf_of_list [24; 12; 18]
  /\ Kernels.lcm_of_list [12; 18; 24] = Kernels.lcm_of_list [24; 12; 18].
Proof.
  apply reducers_order_independent.
  exact (Permutation_sym (Permutation_cons_append [12; 18] 24)).
Defined.

(** X5: [lcm_of_list] returns 0 exactly on the empty sequence and on the
    sequences that hold a zero; [hcf_of_list] returns 0 exactly when every
    element is zero. *)
Theorem reducers_zero (nums : list Z) :
  (Kernels.lcm_of_list nums = 0 <-> nums = [] \/ In 0 nums)
  /\ (Kernels.hcf_of_list nums = 0 <-> Forall (fun x => x = 0) nums).
Proof.
  destruct nums as [| first rest]; cbn [Kernels.lcm_of_list Kernels.hcf_of_list].
  - split; split; auto.
  - rewrite lcm_fold_zero, hcf_fold_zero, Z.abs_0_iff, Forall_forall. split.
    + cbn [In]. split.
      * intros [H | H]; right; auto.
      * intros [H | [H | H]]; [discriminate | auto | auto].
    + split.
      * intros [-> Hall] x [<- | Hx]; [reflexivity | now apply Hall].
      * intros Hall. split; [apply Hall; now left |].
        intros x Hx. apply Hall. now right.
Qed.

(** ** Further properties of the Fibonacci generator *)

Section FibonacciMore.

Import Kernels Notions.

Lemma fibonacci_series_negative (n : Z) : n < 0 -> fibonacci_series n = [0; 1].
Proof.
  intros Hn. unfold fibonacci_series, fibonacci_series_fuel.
  destruct (Z.eqb_spec n 0); [lia |].
  destruct (Z.eqb_spec n 1); [lia |].
  cbn [fibonacci_loop length].
  now destruct (Z.ltb_spec (Z.of_nat 2) n); [lia |].
Qed.

Lemma fibonacci_series_length (n : Z) :
  0 <= n -> length (fibonacci_series n) = Z.to_nat n.
Proof.
  intros Hn.
  assert (Hcases : n = 0 \/ n = 1 \/ 2 <= n) by lia.
  destruct Hcases as [-> | [-> | Hbig]]; [reflexivity | reflexivity |].
  destruct (fibonacci_series_shape n Hbig) as (_ & _ & _ & Hlen). lia.
Qed.

(** An additive sequence that starts 0, 1 holds the Fibonacci numbers. *)
Lemma additive_values (ext : list Z) :
  additive (0 :: 1 :: ext) ->
  forall i : nat,
    (S i < length (0%Z :: 1%Z :: ext))%nat ->
    nth_error (0 :: 1 :: ext) i = Some (fib i)
    /\ nth_error (0 :: 1 :: ext) (S i) = Some (fib (S i)).
Proof.
  intros Hadd i. induction i as [| i IH]; intros Hi.
  - split; reflexivity.
  - destruct IH as [Hprev Hcur]; [lia |].
    split; [exact Hcur |].
    destruct (nth_error (0 :: 1 :: ext) (S (S i))) as [c |] eqn:Hc;
      [| apply nth_error_None in Hc; lia].
    rewrite (Hadd i _ _ _ Hprev Hcur Hc). reflexivity.
Qed.

Lemma fibonacci_series_nth (n : Z) (i : nat) :
  (i < length (fibonacci_series n))%nat ->
  0 <= n ->
  nth_error (fibonacci_series n) i = Some (fib i).
Proof.
  intros Hi Hn.
  assert (Hcases : n = 0 \/ n = 1 \/ 2 <= n) by lia.
  destruct Hcases as [-> | [-> | Hbig]].
  - cbn in Hi. lia.
  - cbn in Hi. assert (i = 0%nat) as -> by lia. reflexivity.
  - destruct (fibonacci_series_shape n Hbig) as (ext & Hseq & Hadd & _).
    rewrite Hseq in *.
    destruct i as [| i]; [reflexivity |].
    now apply (additive_values ext Hadd i).
Qed.

Lemma fibonacci_series_is_map (n : Z) :
  0 <= n -> fibonacci_series n = map fib (seq 0 (Z.to_nat n)).
Proof.
  intros Hn.
  apply nth_error_ext. intros i.
  destruct (Nat.lt_ge_cases i (Z.to_nat n)) as [Hlt | Hge].
  - rewrite fibonacci_series_nth by (rewrite ?fibonacci_series_length; lia).
    rewrite nth_error_map, nth_error_seq.
    destruct (Nat.ltb_spec i (Z.to_nat n)); [reflexivity | lia].
  - transitivity (@None Z).
    + apply nth_error_None. rewrite fibonacci_series_length; lia.
    + symmetry. apply nth_error_None. rewrite length_map, length_seq. lia.
Qed.

End FibonacciMore.

(** X6: [fibonacci_series n] has n terms for every n from 0 on, with no upper
    bound, and is [[0; 1]] for every negative n: on a negative count the
    function does not return an empty sequence. *)
Theorem fibonacci_series_any_count (n : Z) :
  Z.of_nat (length (Kernels.fibonacci_series n)) = (if n <? 0 then 2 else n)
  /\ (if n <? 0
      then Kernels.fibonacci_series n = [0; 1]
      else Kernels.fibonacci_series_fuel (S (Z.to_nat n)) n
           = Some (Kernels.fibonacci_series n)).
Proof.
  destruct (Z.ltb_spec n 0) as [Hneg | Hpos].
  - rewrite (fibonacci_series_negative n Hneg). split; reflexivity.
  - split; [| apply fibonacci_series_fuel_enough].
    rewrite fibonacci_series_length by exact Hpos. lia.
Qed.

(** X7: the terms [fibonacci_series] returns are the Fibonacci numbers: for n
    from 0 on, the result is F(0), F(1), ..., F(n-1) of the recurrence
    F(0) = 0, F(1) = 1, F(i+2) = F(i+1) + F(i), so its last term is
    F(n-1). *)
Theorem fibonacci_series_values (n : Z) (Hn : 0 <= n) :
  Kernels.fibonacci_series n = map Notions.fib (seq 0 (Z.to_nat n))
  /\ (if n =? 0 then True
      else last (Kernels.fibonacci_series n) 0 = Notions.fib (Z.to_nat n - 1)).
Proof.
  pose proof (fibonacci_series_is_map n Hn) as Hmap.
  split; [exact Hmap |].
  destruct (Z.eqb_spec n 0) as [_ | Hnz]; [exact I |].
  rewrite Hmap.
  replace (Z.to_nat n) with (S (Z.to_nat n - 1)) at 1 by lia.
  rewrite seq_S, map_app. cbn [map plus]. apply last_last.
Qed.

Lemma fibonacci_series_values_witness :
  Kernels.fibonacci_series 12 = map Notions.fib (seq 0 12)
  /\ last (Kernels.fibonacci_series 12) 0 = 89.
Proof. apply (fibonacci_series_values 12). lia. Defined.

(** X8: a shorter result is the beginning of a longer one: for
    0 <= m <= n the first m terms of [fibonacci_series n] are
    [fibonacci_series m]. *)
Theorem fibonacci_series_prefix (m n : Z) (Hm : 0 <= m) (Hmn : m <= n) :
  firstn (Z.to_nat m) (Kernels.fibonacci_series n) = Kernels.fibonacci_series m.
Proof.
  rewrite !fibonacci_series_is_map by lia.
  replace (Z.to_nat n) with (Z.to_nat m + (Z.to_nat n - Z.to_nat m))%nat by lia.
  rewrite seq_app, firstn_map, firstn_app, length_seq, Nat.sub_diag.
  rewrite firstn_all2 by (rewrite length_seq; lia).
  cbn [firstn]. now rewrite app_nil_r.
Qed.

Lemma fibonacci_series_prefix_witness :
  firstn 4 (Kernels.fibonacci_series 9) = Kernels.fibonacci_series 4.
Proof. apply (fibonacci_series_prefix 4 9); lia. Defined.

(** ** Further properties of the primality test *)

Section PrimalityMore.

Import Kernels.

Lemma no_proper_divisor_prime (n : Z) : no_proper_divisor n <-> prime n.
Proof.
  rewrite <- prime_alt. unfold no_proper_divisor, Z.prime. split.
  - intros [Hn Hall]. split; [lia |].
    intros d Hd Hdiv. apply (Hall d); [lia |].
    apply Z.mod_divide; [lia | exact Hdiv].
  - intros [Hn Hall]. split; [lia |].
    intros d Hd Hmod. apply (Hall d); [lia |].
    apply Z.mod_divide in Hmod; [exact Hmod | lia].
Qed.

Lemma is_prime_product (a b : Z) : 2 <= a -> 2 <= b -> is_prime (a * b) = false.
Proof.
  intros Ha Hb.
  destruct (is_prime (a * b)) eqn:Hp; [| reflexivity].
  apply is_prime_spec in Hp. destruct Hp as [_ Hall].
  exfalso. apply (Hall b); [nia |].
  apply Z.mod_mul. lia.
Qed.

End PrimalityMore.

(** X9: [is_prime n] is true exactly when n is a prime number, for every
    integer n, with no bound on n. *)
Theorem is_prime_iff_prime (n : Z) :
  Kernels.is_prime n = true <-> prime n.
Proof. rewrite is_prime_spec. apply no_proper_divisor_prime. Qed.

(** X10: [is_prime] rejects every product of two integers that are both at
    least 2; in particular the square of a prime, the case the loop test
    [i * i <= n] decides at its bound. *)
Theorem is_prime_rejects_products (a b : Z) (Ha : 2 <= a) (Hb : 2 <= b) :
  Kernels.is_prime (a * b) = false /\ Kernels.is_prime (a * a) = false.
Proof. split; now apply is_prime_product. Qed.

Lemma is_prime_rejects_products_witness :
  Kernels.is_prime (97 * 101) = false /\ Kernels.is_prime (97 * 97) = false.
Proof. apply (is_prime_rejects_products 97 101); lia. Defined.

(** ** Further properties of the text functions *)

Section TextMore.

Import Text.

Local Open Scope string_scope.

Lemma span_all_chars (cls : ascii -> bool) (s : string) :
  all_chars cls s = true -> substring 0 (span cls s) s = s.
Proof.
  induction s as [| c s IH]; cbn [all_chars span substring]; [reflexivity |].
  intros H. apply andb_true_iff in H. destruct H as [Hc Hs].
  rewrite Hc. cbn [substring]. now rewrite IH.
Qed.

Lemma first_word_of_word (w : string) : is_word w = true -> first_word w = w.
Proof.
  destruct w as [| c w]; cbn [is_word]; [discriminate |].
  intros H. apply andb_true_iff in H. destruct H as [Hc Hw].
  unfold first_word. cbn [re_search]. rewrite match_here_word, Hc.
  cbn [substring]. now rewrite span_all_chars.
Qed.

Lemma first_word_shape (text : string) :
  if has_letter text then is_word (first_word text) = true
  else first_word text = "".
Proof.
  unfold first_word. destruct (has_letter text) eqn:Hletter.
  - destruct (re_search_word_some text Hletter) as (b & w & sfx & Hrun & _ & _ & Hw & _).
    now rewrite Hrun.
  - now rewrite (re_search_word_none text Hletter).
Qed.

Lemma first_word_eqb_empty (text : string) :
  String.eqb (first_word text) "" = negb (has_letter text).
Proof.
  pose proof (first_word_shape text) as H.
  destruct (has_letter text).
  - destruct (first_word text); [discriminate | reflexivity].
  - now rewrite H.
Qed.

Lemma length_append (s1 s2 : string) :
  String.length (s1 ++ s2) = (String.length s1 + String.length s2)%nat.
Proof. induction s1 as [| c s1 IH]; cbn; [reflexivity | now rewrite IH]. Qed.

Lemma first_word_length (text : string) :
  (String.length (first_word text) <= String.length text)%nat.
Proof.
  pose proof (first_word_shape text) as H.
  destruct (has_letter text) eqn:Hletter.
  - unfold first_word in *.
    destruct (re_search_word_some text Hletter) as (b & w & sfx & Hrun & Heq & _).
    rewrite Hrun.
    assert (Hlen : String.length text
                   = (String.length b + (String.length w + String.length sfx))%nat)
      by (rewrite Heq at 1; now rewrite !length_append).
    lia.
  - rewrite H. cbn. lia.
Qed.

(** [str.strip] leaves nothing to strip. *)
Lemma lstrip_shape (s : string) :
  lstrip s = "" \/ exists c r, lstrip s = String c r /\ is_space c = false.
Proof.
  induction s as [| c s IH]; cbn [lstrip]; [now left |].
  destruct (is_space c) eqn:Hc; [exact IH |].
  right. now exists c, s.
Qed.

Lemma rstrip_cons (c : ascii) (r : string) :
  is_space c = false -> rstrip (String c r) = String c (rstrip r).
Proof.
  intros Hc. cbn [rstrip]. destruct (rstrip r); [now rewrite Hc | reflexivity].
Qed.

Lemma rstrip_idempotent (s : string) : rstrip (rstrip s) = rstrip s.
Proof.
  induction s as [| c s IH]; [reflexivity |].
  cbn [rstrip]. destruct (rstrip s) as [| k kept] eqn:Hs.
  - destruct (is_space c) eqn:Hc; [reflexivity |].
    cbn [rstrip]. now rewrite Hc.
  - change (rstrip (String c (String k kept)))
      with (match rstrip (String k kept) with
            | "" => if is_space c then "" else String c ""
            | String k' kept' => String c (String k' kept')
            end).
    now rewrite IH.
Qed.

Lemma strip_idempotent (s : string) : strip (strip s) = strip s.
Proof.
  unfold strip.
  destruct (lstrip_shape s) as [-> | (c & r & -> & Hc)]; [reflexivity |].
  rewrite (rstrip_cons c r Hc). cbn [lstrip]. rewrite Hc.
  rewrite (rstrip_cons c (rstrip r) Hc). now rewrite rstrip_idempotent.
Qed.

End TextMore.

(** X11: [first_word] applied to its own result changes nothing, a text that
    is already a word of the pattern is returned whole, and the result is
    never longer than the text. *)
Theorem first_word_idempotent (text : string) :
  Text.first_word (Text.first_word text) = Text.first_word text
  /\ (if Text.is_word text then Text.first_word text = text else True)
  /\ (String.length (Text.first_word text) <= String.length text)%nat.
Proof.
  split; [| split].
  - pose proof (first_word_shape text) as H.
    destruct (Text.has_letter text).
    + now apply first_word_of_word.
    + rewrite H. reflexivity.
  - destruct (Text.is_word text) eqn:Hw; [now apply first_word_of_word | exact I].
  - apply first_word_length.
Qed.

(** ** Further properties of the resolver and the dispatcher *)

Section ServiceMore.

Import Kernels Text Service Notions.

Variable cfg : Config.
Variable requests_post : string -> json -> post_outcome.

(** The resolver with a key: one request, then the reply read in order. *)
Lemma ask_ai_single_word_live (question : string) :
  no_api_key cfg = false ->
  ask_ai_single_word cfg requests_post question
  = match requests_post (request_url cfg) (request_payload question) with
    | RequestException => Raise (HTTPException 502 "AI provider unreachable")
    | Response status_code body =>
        if status_code >=? 400 then Raise (HTTPException 502 "AI provider error")
        else
          match body with
          | None => Raise (OtherException "JSONDecodeError")
          | Some data =>
              match candidate_text data with
              | None => Raise (HTTPException 502 "AI response parsing failed")
              | Some text =>
                  word <-
                    (if truthy text then
                       match text with
                       | JStr s => Return (first_word s)
                       | _ => Raise (OtherException "TypeError")
                       end
                     else Return (first_word EmptyString)) ;;
                  if negb (String.eqb word EmptyString) then Return word
                  else if String.eqb (lower (strip question)) known_question
                       then Return "Mumbai"%string
                       else Raise (HTTPException 502 "AI yielded empty answer")
              end
          end
    end.
Proof.
  intros Hlive. unfold ask_ai_single_word. rewrite Hlive.
  fold (request_url cfg). fold (request_payload question).
  destruct (requests_post (request_url cfg) (request_payload question))
    as [| status_code [data |]]; try reflexivity.
  destruct (status_code >=? 400); [reflexivity |].
  fold (candidate_text data).
  destruct (candidate_text data) as [text |]; [| reflexivity].
  destruct (if truthy text then _ else _) as [word | e]; [| reflexivity].
  cbn [bind dict_get fallback_map].
  rewrite (String.eqb_sym known_question).
  destruct (negb (String.eqb word EmptyString)); [reflexivity |].
  now destruct (String.eqb (lower (strip question)) known_question).
Qed.

Lemma ask_ai_single_word_degraded (question : string) :
  no_api_key cfg = true ->
  ask_ai_single_word cfg requests_post question
  = if String.eqb (lower (strip question)) known_question
    then Return "Mumbai"%string
    else Raise (HTTPException 500 "AI provider key not configured").
Proof. intros Hkey. unfold ask_ai_single_word. now rewrite Hkey. Qed.

Lemma ask_ai_single_word_word (question word : string) :
  ask_ai_single_word cfg requests_post question = Return word ->
  is_word word = true.
Proof.
  destruct (no_api_key cfg) eqn:Hkey.
  - rewrite ask_ai_single_word_degraded by exact Hkey.
    destruct (String.eqb _ _); [| discriminate].
    intros [= <-]. reflexivity.
  - rewrite ask_ai_single_word_live by exact Hkey.
    destruct (requests_post _ _) as [| status_code [data |]]; try discriminate.
    + destruct (status_code >=? 400); [discriminate |].
      destruct (candidate_text data) as [text |]; [| discriminate].
      assert (Hfinal : forall text_word : string,
                 (if negb (String.eqb text_word EmptyString) then Return text_word
                  else if String.eqb (lower (strip question)) known_question
                       then Return "Mumbai"%string
                       else Raise (HTTPException 502 "AI yielded empty answer"))
                 = Return word ->
                 text_word = first_word text_word ->
                 is_word word = true).
      { intros w Hw Hfw.
        destruct (String.eqb w EmptyString) eqn:Hempty; cbn [negb] in Hw.
        - destruct (String.eqb (lower (strip question)) known_question);
            [| discriminate].
          injection Hw as <-. reflexivity.
        - injection Hw as <-. rewrite Hfw in Hempty.
          rewrite first_word_eqb_empty in Hempty.
          pose proof (first_word_shape w) as Hshape.
          destruct (has_letter w); [| discriminate].
          now rewrite Hfw. }
      destruct (truthy text).
      * destruct text; try discriminate. cbn [bind]. intros Hrun.
        apply (Hfinal (first_word s) Hrun).
        pose proof (first_word_shape s) as Hshape.
        destruct (has_letter s).
        -- symmetry. now apply first_word_of_word.
        -- rewrite Hshape. reflexivity.
      * cbn [bind]. intros Hrun.
        apply (Hfinal (first_word EmptyString) Hrun). reflexivity.
    + destruct (status_code >=? 400); discriminate.
Qed.

Lemma ask_ai_single_word_status (question detail : string) (status_code : Z) :
  ask_ai_single_word cfg requests_post question
  = Raise (HTTPException status_code detail) ->
  status_code = if no_api_key cfg then 500 else 502.
Proof.
  destruct (no_api_key cfg) eqn:Hkey.
  - rewrite ask_ai_single_word_degraded by exact Hkey.
    destruct (String.eqb _ _); intros [=]; subst; reflexivity.
  - rewrite ask_ai_single_word_live by exact Hkey. unfold bind.
    repeat case_innermost; intros H; inversion H; reflexivity.
Qed.

Lemma bfhl_failure_status (req : BFHLRequest) (status_code : Z) (detail : string) :
  Service.bfhl cfg requests_post req = Raise (HTTPException status_code detail) ->
  status_code = 400 \/ status_code = 500 \/ status_code = 502.
Proof.
  destruct req as [[n |] [p |] [l |] [h |] [q |]];
    try (intros [= <- _]; now left).
  - fold (only_fibonacci n). rewrite bfhl_only_fibonacci.
    destruct (_ || _); intros [=]; subst; now left.
  - fold (only_prime p). rewrite bfhl_only_prime.
    destruct (_ || _); intros [=]; subst; now left.
  - fold (only_lcm l). rewrite bfhl_only_lcm.
    destruct (_ || _); intros [=]; subst; now left.
  - fold (only_hcf h). rewrite bfhl_only_hcf.
    destruct (_ || _); intros [=]; subst; now left.
  - fold (only_AI q). rewrite bfhl_only_AI.
    destruct (_ || _); [intros [=]; subst; now left |].
    destruct (ask_ai_single_word cfg requests_post (strip q)) eqn:Hask; [discriminate |].
    intros [= ->]. apply ask_ai_single_word_status in Hask.
    destruct (no_api_key cfg); auto.
Qed.

End ServiceMore.

(** X12: whatever the mode and whatever the provider replies, an answer
    [ask_ai_single_word] returns is a word of the pattern, a letter followed
    by letters and hyphens; it is never empty. *)
Theorem resolver_answer_is_word
    (cfg : Service.Config)
    (requests_post : string -> Service.json -> Service.post_outcome)
    (question word : string)
    (Hrun : Service.ask_ai_single_word cfg requests_post question = Service.Return word) :
  Text.is_word word = true /\ word <> EmptyString.
Proof.
  pose proof (ask_ai_single_word_word cfg requests_post question word Hrun) as Hword.
  split; [exact Hword |].
  intros ->. discriminate.
Qed.

Lemma resolver_answer_is_word_witness :
  Service.ask_ai_single_word Service.live_config
    (Service.answering_provider (Service.JStr "Well-known, of course."))
    "Is Mumbai well-known?"
  = Service.Return "Well-known"%string
  /\ Text.is_word "Well-known" = true
  /\ "Well-known"%string <> EmptyString.
Proof.
  assert (Hrun : Service.ask_ai_single_word Service.live_config
                   (Service.answering_provider (Service.JStr "Well-known, of course."))
                   "Is Mumbai well-known?"
                 = Service.Return "Well-known"%string) by reflexivity.
  split; [exact Hrun |].
  exact (resolver_answer_is_word _ _ _ _ Hrun).
Defined.

(** X13: an [HTTPException] raised by [ask_ai_single_word] has status 500
    when no provider key is configured and status 502 when one is; any other
    exception can only come out with a key configured. *)
Theorem resolver_failure_status
    (cfg : Service.Config)
    (requests_post : string -> Service.json -> Service.post_outcome)
    (question : string) (e : Service.exn)
    (Hrun : Service.ask_ai_single_word cfg requests_post question = Service.Raise e) :
  match e with
  | Service.HTTPException status_code _ =>
      status_code = if Service.no_api_key cfg then 500 else 502
  | Service.OtherException _ => Service.no_api_key cfg = false
  end.
Proof.
  destruct e as [status_code detail | class].
  - exact (ask_ai_single_word_status cfg requests_post question detail status_code Hrun).
  - destruct (Service.no_api_key cfg) eqn:Hkey; [| reflexivity].
    rewrite ask_ai_single_word_degraded in Hrun by exact Hkey.
    destruct (String.eqb _ _) in Hrun; discriminate.
Qed.

Lemma resolver_failure_status_witness :
  Service.ask_ai_single_word Service.live_config Service.unreachable_provider
    "What is the capital of France?"
  = Service.Raise (Service.HTTPException 502 "AI provider unreachable")
  /\ 502 = (if Service.no_api_key Service.live_config then 500 else 502).
Proof.
  assert (Hrun : Service.ask_ai_single_word Service.live_config
                   Service.unreachable_provider "What is the capital of France?"
                 = Service.Raise (Service.HTTPException 502 "AI provider unreachable"))
    by reflexivity.
  split; [exact Hrun |].
  exact (resolver_failure_status _ _ _ _ Hrun).
Defined.

(** X14: with no provider key configured neither [ask_ai_single_word] nor
    [bfhl] depends on the provider: no request is made. *)
Theorem degraded_ignores_provider
    (cfg : Service.Config)
    (provider provider' : string -> Service.json -> Service.post_outcome)
    (req : Service.BFHLRequest) (question : string)
    (Hkey : Service.no_api_key cfg = true) :
  Service.ask_ai_single_word cfg provider question
  = Service.ask_ai_single_word cfg provider' question
  /\ Service.bfhl cfg provider req = Service.bfhl cfg provider' req.
Proof.
  split.
  - now rewrite !ask_ai_single_word_degraded.
  - destruct req as [[n |] [p |] [l |] [h |] [q |]]; try reflexivity.
    fold (Service.only_AI q). rewrite !bfhl_only_AI.
    now rewrite !ask_ai_single_word_degraded.
Qed.

Lemma degraded_ignores_provider_witness :
  Service.bfhl Service.default_config Service.unreachable_provider
    (Service.only_AI "What is the capital of France?")
  = Service.bfhl Service.default_config
      (Service.answering_provider (Service.JStr "Paris"))
      (Service.only_AI "What is the capital of France?").
Proof.
  apply (degraded_ignores_provider Service.default_config
           Service.unreachable_provider
           (Service.answering_provider (Service.JStr "Paris"))
           (Service.only_AI "What is the capital of France?")
           "What is the capital of France?" eq_refl).
Defined.

(** X15: on a request without the [AI] field the result of [bfhl] depends on
    the configuration through [OFFICIAL_EMAIL] only: the provider, the key
    and the model play no part. *)
Theorem numeric_requests_ignore_resolver
    (cfg cfg' : Service.Config)
    (provider provider' : string -> Service.json -> Service.post_outcome)
    (req : Service.BFHLRequest)
    (Hai : Service.AI req = None)
    (Hemail : Service.OFFICIAL_EMAIL cfg = Service.OFFICIAL_EMAIL cfg') :
  Service.bfhl cfg provider req = Service.bfhl cfg' provider' req.
Proof.
  destruct cfg as [email key model], cfg' as [email' key' model'].
  cbn in Hemail. subst email'.
  destruct req as [[n |] [p |] [l |] [h |] [q |]]; cbn in Hai; try discriminate;
    reflexivity.
Qed.

Lemma numeric_requests_ignore_resolver_witness :
  Service.bfhl Service.default_config Service.unreachable_provider
    (Service.only_lcm [4; 6; 10])
  = Service.bfhl Service.live_config
      (Service.answering_provider (Service.JStr "Paris"))
      (Service.only_lcm [4; 6; 10]).
Proof.
  apply (numeric_requests_ignore_resolver Service.default_config Service.live_config
           Service.unreachable_provider
           (Service.answering_provider (Service.JStr "Paris"))
           (Service.only_lcm [4; 6; 10]) eq_refl eq_refl).
Defined.

(** X16: on a request whose only field is [AI], [bfhl] raises an
    [HTTPException] with status 400 exactly when the question is empty once
    stripped or has more than 300 characters before stripping, in either
    mode and whatever the provider replies. *)
Theorem question_validation
    (cfg : Service.Config)
    (requests_post : string -> Service.json -> Service.post_outcome)
    (q : string) :
  Service.is_invalid_input (Service.bfhl cfg requests_post (Service.only_AI q))
  = Notions.blank q || Notions.too_long q.
Proof.
  rewrite bfhl_only_AI. unfold Notions.blank, Notions.too_long.
  destruct ((Text.len (Text.strip q) =? 0) || (Text.len q >? 300)); [reflexivity |].
  destruct (Service.ask_ai_single_word cfg requests_post (Text.strip q))
    as [word | [status_code detail | class]] eqn:Hask; try reflexivity.
  cbn [Service.is_invalid_input].
  destruct (Z.eqb_spec status_code 400) as [-> | Hne]; [| reflexivity].
  now apply ask_ai_single_word_not_400 in Hask.
Qed.

(** X17: with no provider key configured, [bfhl] on a request whose only
    field is [AI] has three outcomes: status 400 for a question that is
    blank or longer than 300 characters, the success body with "Mumbai" for
    a question that is the known one once stripped and lower-cased, and
    status 500 for every other question; the [data] of a body it returns is
    "Mumbai". *)
Theorem degraded_question_dispatch
    (cfg : Service.Config)
    (requests_post : string -> Service.json -> Service.post_outcome)
    (q : string)
    (Hkey : Service.no_api_key cfg = true) :
  Service.bfhl cfg requests_post (Service.only_AI q)
  = (if Notions.blank q || Notions.too_long q then
      Service.Raise (Service.HTTPException 400 "AI must be non-empty question")
    else if String.eqb (Text.lower (Text.strip q)) Service.known_question then
      Service.Return (Service.success_body cfg (Service.DataStr "Mumbai"))
    else Service.Raise (Service.HTTPException 500 "AI provider key not configured"))
  /\ match Service.bfhl cfg requests_post (Service.only_AI q) with
     | Service.Return body =>
         Service.is_success body = true
         /\ Service.data body = Some (Service.DataStr "Mumbai")
         /\ Service.error body = None
     | Service.Raise _ => True
     end.
Proof.
  assert (Hrun : Service.bfhl cfg requests_post (Service.only_AI q)
                 = if Notions.blank q || Notions.too_long q then
                     Service.Raise
                       (Service.HTTPException 400 "AI must be non-empty question")
                   else if String.eqb (Text.lower (Text.strip q)) Service.known_question
                   then Service.Return
                          (Service.success_body cfg (Service.DataStr "Mumbai"))
                   else Service.Raise
                          (Service.HTTPException 500 "AI provider key not configured")).
  { rewrite bfhl_only_AI. unfold Notions.blank, Notions.too_long.
    destruct ((Text.len (Text.strip q) =? 0) || (Text.len q >? 300)); [reflexivity |].
    rewrite ask_ai_single_word_degraded by exact Hkey.
    rewrite strip_idempotent.
    now destruct (String.eqb (Text.lower (Text.strip q)) Service.known_question). }
  split; [exact Hrun |].
  rewrite Hrun.
  destruct (Notions.blank q || Notions.too_long q); [exact I |].
  destruct (String.eqb (Text.lower (Text.strip q)) Service.known_question); [| exact I].
  cbn. repeat split.
Qed.

Lemma degraded_question_dispatch_witness :
  Service.bfhl Service.default_config Service.unreachable_provider
    (Service.only_AI "   WHAT is the capital city of Maharashtra? ")
  = Service.Return
      (Service.success_body Service.default_config (Service.DataStr "Mumbai")).
Proof.
  rewrite (proj1 (degraded_question_dispatch Service.default_config
                    Service.unreachable_provider
                    "   WHAT is the capital city of Maharashtra? " eq_refl)).
  reflexivity.
Defined.

(** X18: the response to a request carries status 200, 400, 500 or 502;
    [is_success] is true exactly at status 200; an error envelope has no
    data and its error code is the status and its path the request path,
    and a success envelope has data and no error.  The [health] envelope is
    a success with the configured email and neither data nor error. *)
Theorem response_shape
    (cfg : Service.Config)
    (requests_post : string -> Service.json -> Service.post_outcome)
    (request_path : string) (req : Service.BFHLRequest) :
  let response :=
    Service.respond cfg request_path (Service.bfhl cfg requests_post req) in
  In (Service.status response) [200; 400; 500; 502]
  /\ Service.is_success (Service.content response) = (Service.status response =? 200)
  /\ match Service.error (Service.content response) with
     | Some e =>
         Service.code e = Service.status response
         /\ Service.path e = request_path
         /\ Service.data (Service.content response) = None
     | None => Service.is_not_none (Service.data (Service.content response)) = true
     end
  /\ Notions.health cfg
     = {| Service.is_success := true;
          Service.official_email := Service.OFFICIAL_EMAIL cfg;
          Service.data := None;
          Service.error := None |}.
Proof.
  intros response. subst response.
  destruct (Service.bfhl cfg requests_post req)
    as [body | [status_code detail | class]] eqn:Hrun.
  - destruct (bfhl_return_body cfg requests_post req body Hrun) as [d ->].
    cbn. repeat split; auto.
  - cbn.
    destruct (bfhl_failure_status cfg requests_post req status_code detail Hrun)
      as [-> | [-> | ->]]; repeat split; auto.
  - cbn. repeat split; auto.
Qed.

(** X19: with a provider key configured, when the provider answers the one
    request with a status below 400 and a body whose text field is a string,
    [ask_ai_single_word] returns the first word of that string if it has a
    letter; if it has none, the known question still gets "Mumbai" and every
    other question the [HTTPException] with status 502 and detail
    "AI yielded empty answer". *)
Theorem live_answer
    (cfg : Service.Config)
    (requests_post : string -> Service.json -> Service.post_outcome)
    (question s : string) (status_code : Z) (reply : Service.json)
    (Hlive : Service.no_api_key cfg = false)
    (Hpost : requests_post (Notions.request_url cfg) (Notions.request_payload question)
             = Service.Response status_code (Some reply))
    (Hstatus : status_code < 400)
    (Htext : Notions.candidate_text reply = Some (Service.JStr s)) :
  Service.ask_ai_single_word cfg requests_post question
  = if Text.has_letter s then Service.Return (Text.first_word s)
    else if String.eqb (Text.lower (Text.strip question)) Service.known_question
         then Service.Return "Mumbai"%string
         else Service.Raise (Service.HTTPException 502 "AI yielded empty answer").
Proof.
  rewrite ask_ai_single_word_live by exact Hlive.
  rewrite Hpost.
  destruct (Z.geb_spec status_code 400) as [Hge | _]; [lia |].
  rewrite Htext. cbn [Service.truthy].
  assert (Hword : (if negb (String.eqb s EmptyString)
                   then Service.Return (Text.first_word s)
                   else Service.Return (Text.first_word EmptyString))
                  = Service.Return (Text.first_word s)).
  { destruct (String.eqb_spec s EmptyString) as [-> | _]; reflexivity. }
  rewrite Hword. cbn [Service.bind].
  rewrite first_word_eqb_empty, negb_involutive.
  reflexivity.
Qed.

Lemma live_answer_witness :
  Service.ask_ai_single_word Service.live_config
    (Service.answering_provider (Service.JStr "**Paris** is the capital."))
    "What is the capital of France?"
  = Service.Return "Paris"%string.
Proof.
  rewrite (live_answer Service.live_config
             (Service.answering_provider (Service.JStr "**Paris** is the capital."))
             "What is the capital of France?" "**Paris** is the capital." 200
             (Service.JObj
                [("candidates"%string,
                  Service.JArr
                    [Service.JObj
                       [("content"%string,
                         Service.JObj
                           [("parts"%string,
                             Service.JArr
                               [Service.JObj
                                  [("text"%string,
                                    Service.JStr "**Paris** is the capital.")]])])]])])
             eq_refl eq_refl ltac:(lia) eq_refl).
  reflexivity.
Defined.
